(** * SolarEdge dashboard: the chunked, fault-tolerant energy fetch

    A shallow embedding of [fetch_energy_chunked] and [fetch_single_chunk]
    of [solaredge_plot.py], and the properties of the fetch pipeline.

    Modelling conventions.
    - A [datetime.date] is its proleptic Gregorian ordinal, an integer
      ([date.toordinal]); [d + timedelta(days=n)] is integer addition.  The
      dates of the program come from two [st.date_input] widgets, which keep
      them within ten years of their default value, far from [date.max];
      [planned_dates_in_calendar] shows that for such ranges every date the
      loop computes is a date of the calendar.
    - The remote service is a transition function on an abstract world:
      one call of [requests.get] consumes a request and a world and yields
      either an exception of [requests] or a response, and the next world.
    - [st.warning] appends to the list of warnings shown to the user.
    - A [pandas.DataFrame] is the list of its rows; the float columns hold
      rationals (see [normalize] for why rounding is not affected). *)

From Stdlib Require Import String ZArith QArith Qround Qabs Lqa List Sorted Bool Lia.
Import ListNotations.

Open Scope Z_scope.

(** ** Data model *)

(** A calendar date as an ordinal day number. *)
Definition pydate : Type := Z.

(** [pandas.Timestamp], as produced by [pd.to_datetime] from the combined
    date-time string of the API. *)
Record Timestamp : Type := mkTimestamp {
  ts_year : Z;
  ts_month : Z;
  ts_day : Z;
  ts_hour : Z;
  ts_minute : Z;
  ts_second : Z
}.

(** One element of the JSON list [energy.values]: the date-time (already
    parsed) and a value that may be [null]. *)
Record raw_sample : Type := mkRaw {
  raw_date : Timestamp;
  raw_value : option Q
}.

(** One row of the normalized frame, with the columns that
    [fetch_single_chunk] leaves in it. *)
Record row : Type := mkRow {
  datetime : Timestamp;
  value : Q;
  hour : Q;
  date : Z * Z * Z;
  year : Z;
  month : Z;
  day : Z;
  hour_rounded : Z
}.

Definition DataFrame : Type := list row.

(** [df.empty] *)
Definition empty (df : DataFrame) : bool :=
  match df with
  | [] => true
  | _ :: _ => false
  end.

(** [pd.concat(frames, ignore_index=True)] *)
Definition pd_concat (frames : list DataFrame) : DataFrame := concat frames.

(** ** Normalization of one sample (lines 68-75) *)

(** [Series.fillna(0)] on one cell. *)
Definition fillna0 (v : option Q) : Q :=
  match v with
  | Some q => q
  | None => 0%Q
  end.

(** [Series.round()] on one cell: numpy rounds to the nearest integer and
    takes the even one at a tie. *)
Definition round_half_even (q : Q) : Z :=
  let f := Qfloor q in
  match Qcompare (q - inject_Z f) (1 # 2) with
  | Lt => f
  | Gt => f + 1
  | Eq => if Z.even f then f else f + 1
  end.

(** [dt.hour + dt.minute / 60].  On floats the sum differs from the
    rational by far less than 1/60, the distance of any [minute / 60] other
    than 30/60 to a tie, and at minute 30 the float sum is exact: rounding
    the rational gives the integer that rounding the float gives. *)
Definition fractional_hour (t : Timestamp) : Q :=
  (inject_Z (ts_hour t) + inject_Z (ts_minute t) / 60)%Q.

Definition normalize (s : raw_sample) : row :=
  let dt := raw_date s in
  let h := fractional_hour dt in
  {| datetime := dt;
     value := fillna0 (raw_value s);
     hour := h;
     date := (ts_year dt, ts_month dt, ts_day dt);
     year := ts_year dt;
     month := ts_month dt;
     day := ts_day dt;
     hour_rounded := round_half_even h |}.

(** ** Exceptions, requests and responses *)

(** The exceptions of [requests] that a fetch can raise: [HTTPError] from
    [raise_for_status], [ConnectionError] and [Timeout] from [requests.get]. *)
Inductive exn : Type :=
| HTTPError (status : Z)
| ConnectionError
| Timeout.

(** [except requests.exceptions.HTTPError] *)
Definition is_HTTPError (e : exn) : bool :=
  match e with
  | HTTPError _ => true
  | _ => false
  end.

(** [except Exception] *)
Definition is_Exception (e : exn) : bool := true.

Record request : Type := mkRequest {
  url : string;
  api_key : string;
  timeUnit : string;
  startDate : pydate;
  endDate : pydate
}.

(** What the program reads of a response: the status code and
    [r.json().get("energy", {}).get("values", [])], the body being the JSON
    document of the API, where the list may be absent or empty. *)
Record Response : Type := mkResponse {
  status_code : Z;
  energy_values : list raw_sample
}.

Inductive http_result : Type :=
| GetRaises (e : exn)
| GetReturns (r : Response).

(** [Response.raise_for_status]: client errors 400-499 and server errors
    500-599 raise. *)
Definition http_error_status (code : Z) : bool :=
  (400 <=? code) && (code <? 600).

(** ** Results, state and the monad of the pipeline *)

Inductive result (A : Type) : Type :=
| Done (a : A)
| Raised (e : exn)
| OutOfFuel.

Arguments Done {A} a.
Arguments Raised {A} e.
Arguments OutOfFuel {A}.

(** The two messages passed to [st.warning]. *)
Inductive warning : Type :=
| FailedChunk (current chunk_end : pydate)
| SkippedDay (d : pydate) (sub_e : exn).

Definition MAX_DAYS : Z := 31.

(** [pd.date_range(a, b)]: the days from [a] to [b], both included. *)
Definition date_range (a b : pydate) : list pydate :=
  map (fun i => a + Z.of_nat i) (seq 0 (Z.to_nat (b - a + 1))).

Section Pipeline.

Variable World : Type.
Variable http_get : request -> World -> http_result * World.
Variables API_KEY SITE_ID : string.

Record state : Type := mkState {
  world : World;
  warnings : list warning
}.

Definition M (A : Type) : Type := state -> result A * state.

Definition ret {A} (a : A) : M A := fun s => (Done a, s).

Definition raise {A} (e : exn) : M A := fun s => (Raised e, s).

Definition out_of_fuel {A} : M A := fun s => (OutOfFuel, s).

Definition bind {A B} (m : M A) (k : A -> M B) : M B :=
  fun s =>
    match m s with
    | (Done a, s') => k a s'
    | (Raised e, s') => (Raised e, s')
    | (OutOfFuel, s') => (OutOfFuel, s')
    end.

(** [try: body except C as e: handler e], where [catches] decides
    membership in the class [C]. *)
Definition try_except {A} (body : M A) (catches : exn -> bool)
    (handler : exn -> M A) : M A :=
  fun s =>
    match body s with
    | (Raised e, s') => if catches e then handler e s' else (Raised e, s')
    | other => other
    end.

(** [st.warning(msg)] *)
Definition st_warning (msg : warning) : M unit :=
  fun s => (Done tt, {| world := world s; warnings := warnings s ++ [msg] |}).

(** [requests.get(url, params=params, timeout=30)] *)
Definition requests_get (req : request) : M Response :=
  fun s =>
    match http_get req (world s) with
    | (GetRaises e, w) => (Raised e, {| world := w; warnings := warnings s |})
    | (GetReturns r, w) => (Done r, {| world := w; warnings := warnings s |})
    end.

(** [r.raise_for_status()] *)
Definition raise_for_status (r : Response) : M unit :=
  if http_error_status (status_code r) then raise (HTTPError (status_code r))
  else ret tt.

Notation "x <- m ;; k" := (bind m (fun x => k))
  (at level 100, m at next level, right associativity).
Notation "m ;;; k" := (bind m (fun _ => k))
  (at level 100, right associativity).

Definition BASE_URL : string :=
  ("https://monitoringapi.solaredge.com/site/" ++ SITE_ID)%string.

(** ** [fetch_single_chunk] (lines 54-76) *)
Definition fetch_single_chunk (time_unit : string)
    (start_date end_date : pydate) : M DataFrame :=
  let url := (BASE_URL ++ "/energy")%string in
  let params := {| url := url; api_key := API_KEY; timeUnit := time_unit;
                   startDate := start_date; endDate := end_date |} in
  r <- requests_get params ;;
  raise_for_status r ;;;
  let data := energy_values r in
  match data with
  | [] => ret []
  | _ :: _ => ret (map normalize data)
  end.

(** [if not df.empty: all_frames.append(df)] *)
Definition append_nonempty (all_frames : list DataFrame) (df : DataFrame)
    : list DataFrame :=
  if empty df then all_frames else all_frames ++ [df].

(** One turn of the inner [for] loop (lines 42-47). *)
Definition retry_day (time_unit : string) (d : pydate)
    (all_frames : list DataFrame) : M (list DataFrame) :=
  try_except
    (df_day <- fetch_single_chunk time_unit d d ;;
     ret (append_nonempty all_frames df_day))
    is_Exception
    (fun sub_e => st_warning (SkippedDay d sub_e) ;;; ret all_frames).

(** The inner [for d in pd.date_range(current, chunk_end)] loop. *)
Fixpoint retry_days (time_unit : string) (days : list pydate)
    (all_frames : list DataFrame) : M (list DataFrame) :=
  match days with
  | [] => ret all_frames
  | d :: rest =>
      frames <- retry_day time_unit d all_frames ;;
      retry_days time_unit rest frames
  end.

(** The body of the [while] loop after [chunk_end] is known (lines 33-48):
    it yields the frames accumulated so far and the next value of
    [current]. *)
Definition process_chunk (time_unit : string) (current chunk_end : pydate)
    (all_frames : list DataFrame) : M (list DataFrame * pydate) :=
  try_except
    (df <- fetch_single_chunk time_unit current chunk_end ;;
     ret (append_nonempty all_frames df, chunk_end + 1))
    is_HTTPError
    (fun e =>
       st_warning (FailedChunk current chunk_end) ;;;
       frames <- retry_days time_unit (date_range current chunk_end)
                   all_frames ;;
       ret (frames, chunk_end + 1)).

(** [min(current + timedelta(days=MAX_DAYS - 1), end_date)] (line 32) *)
Definition chunk_end_of (current end_date : pydate) : pydate :=
  Z.min (current + (MAX_DAYS - 1)) end_date.

(** The [while current <= end_date] loop (lines 31-48); each turn of the
    loop uses one unit of [fuel]. *)
Fixpoint fetch_loop (fuel : nat) (time_unit : string)
    (current end_date : pydate) (all_frames : list DataFrame)
    : M (list DataFrame) :=
  if current <=? end_date then
    match fuel with
    | O => out_of_fuel
    | S fuel' =>
        let chunk_end := chunk_end_of current end_date in
        p <- process_chunk time_unit current chunk_end all_frames ;;
        fetch_loop fuel' time_unit (snd p) end_date (fst p)
    end
  else ret all_frames.

(** Lines 50-52. *)
Definition assemble (all_frames : list DataFrame) : DataFrame :=
  match all_frames with
  | [] => []
  | _ :: _ => pd_concat all_frames
  end.

(** The number of days of the range bounds the number of turns. *)
Definition enough_fuel (start_date end_date : pydate) : nat :=
  Z.to_nat (end_date - start_date + 1).

(** ** [fetch_energy_chunked] (lines 27-52) *)
Definition fetch_energy_chunked (time_unit : string)
    (start_date end_date : pydate) : M DataFrame :=
  all_frames <- fetch_loop (enough_fuel start_date end_date) time_unit
                  start_date end_date [] ;;
  ret (assemble all_frames).

(** ** The chunks and the days, as the loops visit them *)

(** The processing of a list of chunks in order, each by the body of the
    [while] loop. *)
Fixpoint fetch_chunks (time_unit : string) (plan : list (pydate * pydate))
    (all_frames : list DataFrame) : M (list DataFrame) :=
  match plan with
  | [] => ret all_frames
  | (current, chunk_end) :: rest =>
      p <- process_chunk time_unit current chunk_end all_frames ;;
      fetch_chunks time_unit rest (fst p)
  end.

(** A fetch seen from the remote service alone: its result and the next
    world. *)
Definition fetch_in_world (time_unit : string) (start_date end_date : pydate)
    (w : World) : result DataFrame * World :=
  let (r, s) := fetch_single_chunk time_unit start_date end_date
                  {| world := w; warnings := [] |} in
  (r, world s).

(** The direct per-day fetch of the specification: every day of the list is
    fetched on its own, in the order of the list, whatever the other days
    do; the result of each day is kept.  The fallback of [process_chunk] is
    compared with it. *)
Fixpoint per_day_fetch (time_unit : string) (days : list pydate) (w : World)
    : list (result DataFrame) * World :=
  match days with
  | [] => ([], w)
  | d :: rest =>
      let (r, w1) := fetch_in_world time_unit d d w in
      let (rs, w2) := per_day_fetch time_unit rest w1 in
      (r :: rs, w2)
  end.

End Pipeline.

Arguments state World : clear implicits.
Arguments mkState {World} world warnings.
Arguments world {World} s.
Arguments warnings {World} s.
Arguments M World A : clear implicits.
Arguments ret {World A} a s.
Arguments bind {World A B} m k s.
Arguments try_except {World A} body catches handler s.
Arguments st_warning {World} msg s.
Arguments requests_get {World} http_get req s.
Arguments raise_for_status {World} r s.
Arguments fetch_single_chunk {World} http_get API_KEY SITE_ID
  time_unit start_date end_date s.
Arguments retry_day {World} http_get API_KEY SITE_ID time_unit d all_frames s.
Arguments retry_days {World} http_get API_KEY SITE_ID time_unit days
  all_frames s.
Arguments process_chunk {World} http_get API_KEY SITE_ID time_unit current
  chunk_end all_frames s.
Arguments fetch_loop {World} http_get API_KEY SITE_ID fuel time_unit current
  end_date all_frames s.
Arguments fetch_energy_chunked {World} http_get API_KEY SITE_ID time_unit
  start_date end_date s.
Arguments fetch_chunks {World} http_get API_KEY SITE_ID time_unit plan
  all_frames s.
Arguments fetch_in_world {World} http_get API_KEY SITE_ID time_unit
  start_date end_date w.
Arguments per_day_fetch {World} http_get API_KEY SITE_ID time_unit days w.

(** The request that [fetch_single_chunk] sends. *)
Definition energy_request (API_KEY SITE_ID time_unit : string)
    (start_date end_date : pydate) : request :=
  {| url := (BASE_URL SITE_ID ++ "/energy")%string;
     api_key := API_KEY;
     timeUnit := time_unit;
     startDate := start_date;
     endDate := end_date |}.

(** The pairs [(current, chunk_end)] that the [while] loop goes through:
    its test (line 31), [chunk_end] (line 32) and the next [current]
    (lines 37 and 48, the same on both branches). *)
Fixpoint chunk_plan (fuel : nat) (current end_date : pydate)
    : list (pydate * pydate) :=
  if current <=? end_date then
    match fuel with
    | O => []
    | S fuel' =>
        let chunk_end := chunk_end_of current end_date in
        (current, chunk_end) :: chunk_plan fuel' (chunk_end + 1) end_date
    end
  else [].

Definition planned_chunks (start_date end_date : pydate)
    : list (pydate * pydate) :=
  chunk_plan (enough_fuel start_date end_date) start_date end_date.

(** The days of a chunk, and of a list of chunks. *)
Definition chunk_days (c : pydate * pydate) : list pydate :=
  date_range (fst c) (snd c).

Definition days_across (plan : list (pydate * pydate)) : list pydate :=
  flat_map chunk_days plan.

(** A partition of the days [first .. last] into chunks: every chunk starts
    where the one before it stopped, holds at least one day and at most
    [MAX_DAYS], and the last one stops at [last]. *)
Inductive tiles (last : pydate) : pydate -> list (pydate * pydate) -> Prop :=
| tiles_done : tiles last (last + 1) []
| tiles_chunk (first chunk_end : pydate) (rest : list (pydate * pydate)) :
    first <= chunk_end ->
    chunk_end <= last ->
    chunk_end - first + 1 <= MAX_DAYS ->
    tiles last (chunk_end + 1) rest ->
    tiles last first ((first, chunk_end) :: rest).

(** What the day-level fallback makes of the results of the days: the
    frames it appends and the warnings it emits. *)
Fixpoint kept_frames (outcomes : list (result DataFrame)) : list DataFrame :=
  match outcomes with
  | [] => []
  | Done df :: rest => append_nonempty [] df ++ kept_frames rest
  | _ :: rest => kept_frames rest
  end.

Fixpoint skipped_days (days : list pydate)
    (outcomes : list (result DataFrame)) : list warning :=
  match days, outcomes with
  | d :: days', Raised e :: rest => SkippedDay d e :: skipped_days days' rest
  | _ :: days', _ :: rest => skipped_days days' rest
  | _, _ => []
  end.

(** The rows of a successful fetch; a failed fetch has none. *)
Definition rows_of (r : result DataFrame) : DataFrame :=
  match r with
  | Done df => df
  | _ => []
  end.

Definition succeeded (r : result DataFrame) : Prop :=
  exists df, r = Done df.

Definition failed (r : result DataFrame) : Prop :=
  exists e, r = Raised e.

(** ** Calendar dates as ordinals ([datetime._ymd2ord]) *)

Definition is_leap (y : Z) : bool :=
  (y mod 4 =? 0) && (negb (y mod 100 =? 0) || (y mod 400 =? 0)).

Definition days_before_year (y : Z) : Z :=
  let p := y - 1 in p * 365 + p / 4 - p / 100 + p / 400.

Definition DAYS_BEFORE_MONTH : list Z :=
  [-1; 0; 31; 59; 90; 120; 151; 181; 212; 243; 273; 304; 334].

Definition days_before_month (y m : Z) : Z :=
  nth (Z.to_nat m) DAYS_BEFORE_MONTH 0
  + (if (2 <? m) && is_leap y then 1 else 0).

Definition ymd2ord (y m d : Z) : pydate :=
  days_before_year y + days_before_month y m + d.

(** [date.max.toordinal()], the ordinal of 9999-12-31; [date.min] has
    ordinal 1. *)
Definition MAXORDINAL : Z := 3652059.

Definition in_calendar (d : pydate) : Prop := 1 <= d <= MAXORDINAL.

(** ** Remote services used in the examples *)

(** A remote that answers every request the same way. *)
Definition always (r : http_result) (req : request) (w : unit)
    : http_result * unit := (r, w).

(** A remote that plays a script, one answer per request, and answers with
    an empty 200 once the script is over. *)
Definition scripted (req : request) (script : list http_result)
    : http_result * list http_result :=
  match script with
  | [] => (GetReturns {| status_code := 200; energy_values := [] |}, [])
  | r :: rest => (r, rest)
  end.

(** Any remote, with the log of the requests it has received. *)
Definition recording {World : Type}
    (http_get : request -> World -> http_result * World)
    (req : request) (w : World * list request)
    : http_result * (World * list request) :=
  let (r, w') := http_get req (fst w) in
  (r, (w', snd w ++ [req])).

Definition ok (values : list raw_sample) : http_result :=
  GetReturns {| status_code := 200; energy_values := values |}.

Definition http_status (code : Z) : http_result :=
  GetReturns {| status_code := code; energy_values := [] |}.

(** A sample at 14:40 with a null value, and one at 09:15 with 150 Wh. *)
Definition sample_null_1440 : raw_sample :=
  {| raw_date := mkTimestamp 2023 1 1 14 40 0; raw_value := None |}.

Definition sample_150_0915 : raw_sample :=
  {| raw_date := mkTimestamp 2023 1 2 9 15 0; raw_value := Some (150 # 1) |}.

(** ** What a run sends and says *)

(** A request for the energy of days inside a range, of at most [MAX_DAYS]
    days. *)
Definition request_in_range (API_KEY SITE_ID time_unit : string)
    (start_date end_date : pydate) (rq : request) : Prop :=
  url rq = (BASE_URL SITE_ID ++ "/energy")%string
  /\ api_key rq = API_KEY
  /\ timeUnit rq = time_unit
  /\ start_date <= startDate rq
  /\ startDate rq <= endDate rq
  /\ endDate rq <= end_date
  /\ endDate rq - startDate rq + 1 <= MAX_DAYS.

(** A warning about a chunk or a day inside a range. *)
Definition warning_in_range (start_date end_date : pydate) (msg : warning)
    : Prop :=
  match msg with
  | FailedChunk current chunk_end =>
      start_date <= current /\ current <= chunk_end /\ chunk_end <= end_date
  | SkippedDay d _ => start_date <= d <= end_date
  end.

(** The fetches of a list of ranges, one after the other: the result of
    each, and the world after the last. *)
Fixpoint fetch_each {World : Type}
    (http_get : request -> World -> http_result * World)
    (API_KEY SITE_ID time_unit : string) (ranges : list (pydate * pydate))
    (w : World) : list (result DataFrame) * World :=
  match ranges with
  | [] => ([], w)
  | (a, b) :: rest =>
      let (r, w1) := fetch_in_world http_get API_KEY SITE_ID time_unit a b w in
      let (rs, w2) := fetch_each http_get API_KEY SITE_ID time_unit rest w1 in
      (r :: rs, w2)
  end.

(** ** The best-effort endpoints (lines 78-96, 103-104, 112-113) *)

Unset Elimination Schemes.

(** A value of [r.json()]; a dict is the list of its members. *)
Inductive json : Type :=
| JNull
| JBool (b : bool)
| JNum (q : Q)
| JStr (s : string)
| JArr (items : list json)
| JObj (members : list (string * json)).

Set Elimination Schemes.

(** The exceptions of the code around the endpoints: an exception of
    [requests], [r.json()] on a body that is not JSON, and [.get] on a value
    that is not a dict. *)
Inductive py_exn : Type :=
| RequestException (e : exn)
| JSONDecodeError
| AttributeError.

Inductive outcome (A : Type) : Type :=
| Returned (a : A)
| Threw (e : py_exn).

Arguments Returned {A} a.
Arguments Threw {A} e.

(** The status code and the body of a response; [None] is a body that is
    not JSON. *)
Record json_response : Type := mkJsonResponse {
  js_status_code : Z;
  js_body : option json
}.

Inductive url_result : Type :=
| UrlRaises (e : exn)
| UrlReturns (r : json_response).

(** The two messages of the endpoints passed to [st.warning]. *)
Inductive dashboard_warning : Type :=
| FailedSiteOverview (e : py_exn)
| FailedEnvBenefits (e : py_exn).

Fixpoint dict_lookup (key : string) (members : list (string * json))
    : option json :=
  match members with
  | [] => None
  | (k, v) :: rest => if String.eqb k key then Some v else dict_lookup key rest
  end.

(** [obj.get(key, default)] *)
Definition py_get (obj : json) (key : string) (default : json)
    : outcome json :=
  match obj with
  | JObj members =>
      Returned (match dict_lookup key members with
                | Some v => v
                | None => default
                end)
  | _ => Threw AttributeError
  end.

(** The truth value of [if v:]. *)
Definition truthy (v : json) : bool :=
  match v with
  | JNull => false
  | JBool b => b
  | JNum q => negb (Qeq_bool q 0)
  | JStr s => negb (String.eqb s "")
  | JArr items => match items with [] => false | _ :: _ => true end
  | JObj members => match members with [] => false | _ :: _ => true end
  end.

(** The answer is usable: a status that is no error and a JSON object. *)
Definition usable_answer (r : url_result) (members : list (string * json))
    : Prop :=
  exists resp,
    r = UrlReturns resp
    /\ http_error_status (js_status_code resp) = false
    /\ js_body resp = Some (JObj members).

Section Endpoints.

Variable World : Type.
Variable url_get : string -> World -> url_result * World.
Variables API_KEY SITE_ID : string.

(** [fetch_site_overview] (lines 78-86) *)
Definition fetch_site_overview (w : World)
    : json * list dashboard_warning * World :=
  let url := (BASE_URL SITE_ID ++ "/overview?api_key=" ++ API_KEY)%string in
  let attempt : outcome json * World :=
    match url_get url w with
    | (UrlRaises e, w') => (Threw (RequestException e), w')
    | (UrlReturns r, w') =>
        if http_error_status (js_status_code r)
        then (Threw (RequestException (HTTPError (js_status_code r))), w')
        else match js_body r with
             | None => (Threw JSONDecodeError, w')
             | Some body => (py_get body "overview" (JObj []), w')
             end
    end in
  match attempt with
  | (Returned overview, w') => (overview, [], w')
  | (Threw e, w') => (JObj [], [FailedSiteOverview e], w')
  end.

(** [fetch_env_benefits] (lines 88-96) *)
Definition fetch_env_benefits (w : World)
    : json * list dashboard_warning * World :=
  let url := (BASE_URL SITE_ID ++ "/envBenefits?api_key=" ++ API_KEY)%string in
  let attempt : outcome json * World :=
    match url_get url w with
    | (UrlRaises e, w') => (Threw (RequestException e), w')
    | (UrlReturns r, w') =>
        if http_error_status (js_status_code r)
        then (Threw (RequestException (HTTPError (js_status_code r))), w')
        else match js_body r with
             | None => (Threw JSONDecodeError, w')
             | Some body => (py_get body "envBenefits" (JObj []), w')
             end
    end in
  match attempt with
  | (Returned benefits, w') => (benefits, [], w')
  | (Threw e, w') => (JObj [], [FailedEnvBenefits e], w')
  end.

(** Lines 103-104: the overview, and whether its metrics are shown. *)
Definition overview_shown (w : World)
    : bool * list dashboard_warning * World :=
  let '(overview, shown, w') := fetch_site_overview w in
  (truthy overview, shown, w').

(** Lines 112-113: [co2 = env.get('gasEmissionSaved', {}).get('co2', 0)]. *)
Definition co2_saved (w : World)
    : outcome json * list dashboard_warning * World :=
  let '(env, shown, w') := fetch_env_benefits w in
  (match py_get env "gasEmissionSaved" (JObj []) with
   | Returned saved => py_get saved "co2" (JNum 0)
   | Threw e => Threw e
   end,
   shown, w').

End Endpoints.

Arguments fetch_site_overview {World} url_get API_KEY SITE_ID w.
Arguments fetch_env_benefits {World} url_get API_KEY SITE_ID w.
Arguments overview_shown {World} url_get API_KEY SITE_ID w.
Arguments co2_saved {World} url_get API_KEY SITE_ID w.

(** An endpoint that answers every request the same way. *)
Definition always_url (r : url_result) (u : string) (w : unit)
    : url_result * unit := (r, w).

(** ** The figures of the dashboard (lines 144-145, 158-159, 173-175,
    188-196) *)

(** [Series.max()]; [None] is the NaN of an empty series. *)
Fixpoint series_max (values : list Q) : option Q :=
  match values with
  | [] => None
  | v :: rest =>
      match series_max rest with
      | None => Some v
      | Some m => Some (if Qle_bool m v then v else m)
      end
  end.

(** [df[df['value'] == df['value'].max()].iloc[0]]; [None] is the
    [IndexError] of [.iloc[0]] on an empty selection. *)
Definition peak_row (df : DataFrame) : option row :=
  match series_max (map value df) with
  | None => None
  | Some m => find (fun r => Qeq_bool (value r) m) df
  end.

(** [Series.unique()]: the values in order of first appearance. *)
Fixpoint unique_by {K : Type} (eqb : K -> K -> bool) (l : list K) : list K :=
  match l with
  | [] => []
  | x :: rest => x :: filter (fun y => negb (eqb y x)) (unique_by eqb rest)
  end.

(** [sorted(...)], and the order of the keys of [groupby]. *)
Fixpoint insert_by {K : Type} (leb : K -> K -> bool) (x : K) (l : list K)
    : list K :=
  match l with
  | [] => [x]
  | y :: rest => if leb x y then x :: l else y :: insert_by leb x rest
  end.

Definition sort_by {K : Type} (leb : K -> K -> bool) (l : list K) : list K :=
  fold_right (insert_by leb) [] l.

(** Line 188: the years offered after ["All"]. *)
Definition year_options (df : DataFrame) : list Z :=
  sort_by Z.leb (unique_by Z.eqb (map year df)).

(** Line 190: [df[df["year"] == int(year_option)]]. *)
Definition filter_year (y : Z) (df : DataFrame) : DataFrame :=
  filter (fun r => year r =? y) df.

(** [df.groupby(key)["value"].max().reset_index()]: one row per value of
    the key, in ascending order of the key. *)
Definition groupby_max {K : Type} (eqb leb : K -> K -> bool)
    (key : row -> K) (df : DataFrame) : list (K * Q) :=
  flat_map
    (fun k =>
       match series_max (map value (filter (fun r => eqb (key r) k) df)) with
       | Some m => [(k, m)]
       | None => []
       end)
    (sort_by leb (unique_by eqb (map key df))).

(** Equality and order of [datetime.date] values, as triples. *)
Definition date_eqb (a b : Z * Z * Z) : bool :=
  let '(y1, m1, d1) := a in
  let '(y2, m2, d2) := b in
  (y1 =? y2) && (m1 =? m2) && (d1 =? d2).

Definition date_leb (a b : Z * Z * Z) : bool :=
  let '(y1, m1, d1) := a in
  let '(y2, m2, d2) := b in
  (y1 <? y2) || ((y1 =? y2) && ((m1 <? m2) || ((m1 =? m2) && (d1 <=? d2)))).

(** Line 158: [df.groupby("date")["value"].max().reset_index()]. *)
Definition daily_peak (df : DataFrame) : list (Z * Z * Z * Q) :=
  groupby_max date_eqb date_leb date df.

(** Line 159: [(daily_peak["value"] / 0.25).round()]. *)
Definition daily_max_power (peak : Z * Z * Z * Q) : Z :=
  round_half_even (snd peak / (1 # 4)).

(** Equality and order of the [(year, month)] keys. *)
Definition month_eqb (a b : Z * Z) : bool :=
  (fst a =? fst b) && (snd a =? snd b).

Definition month_leb (a b : Z * Z) : bool :=
  (fst a <? fst b) || ((fst a =? fst b) && (snd a <=? snd b)).

(** Lines 173 and 175: [df.groupby(["year", "month"])["value"].max()]. *)
Definition monthly_peak (df : DataFrame) : list (Z * Z * Q) :=
  groupby_max month_eqb month_leb (fun r => (year r, month r)) df.

(** ** The order of the rows *)

(** The day of a sample and of a row, as ordinals, and the second of the
    day. *)
Definition sample_day (s : raw_sample) : pydate :=
  ymd2ord (ts_year (raw_date s)) (ts_month (raw_date s))
    (ts_day (raw_date s)).

Definition row_day (r : row) : pydate := ymd2ord (year r) (month r) (day r).

Definition second_of_day (t : Timestamp) : Z :=
  ts_hour t * 3600 + ts_minute t * 60 + ts_second t.

(** A timestamp that is not after another one. *)
Definition not_after (day1 : pydate) (t1 : Timestamp)
    (day2 : pydate) (t2 : Timestamp) : Prop :=
  day1 < day2 \/ (day1 = day2 /\ second_of_day t1 <= second_of_day t2).

Definition samples_in_order (s1 s2 : raw_sample) : Prop :=
  not_after (sample_day s1) (raw_date s1) (sample_day s2) (raw_date s2).

Definition rows_in_order (r1 r2 : row) : Prop :=
  not_after (row_day r1) (datetime r1) (row_day r2) (datetime r2).

(** A remote that answers a request, when the status is no error, with
    samples of the days asked for, in the order of their timestamps. *)
Definition answers_in_order {World : Type}
    (http_get : request -> World -> http_result * World) : Prop :=
  forall rq w resp,
    fst (http_get rq w) = GetReturns resp ->
    http_error_status (status_code resp) = false ->
    Forall (fun s => startDate rq <= sample_day s <= endDate rq)
      (energy_values resp)
    /\ StronglySorted samples_in_order (energy_values resp).

(** A remote with one sample, at 14:40 on 2023-01-01, which it gives to the
    requests that ask for that day. *)
Definition one_sample_remote (rq : request) (w : unit)
    : http_result * unit :=
  (if (startDate rq <=? 738521) && (738521 <=? endDate rq)
   then ok [sample_null_1440] else ok [],
   w).

(** A row that the normalization of some sample gives. *)
Definition normalized (r : row) : Prop := exists s, r = normalize s.

(** * Properties *)

(** ** Normalization *)

Lemma round_half_even_cases (q : Q) :
  round_half_even q = Qfloor q \/ round_half_even q = Qfloor q + 1.
Proof.
  unfold round_half_even.
  destruct (Qcompare _ _); [destruct (Z.even _) | |]; auto.
Qed.

Lemma round_half_even_nearest (q : Q) :
  (Qabs (inject_Z (round_half_even q) - q) <= 1 # 2)%Q.
Proof.
  assert (Hlo := Qfloor_le q).
  assert (Hhi := Qlt_floor q).
  rewrite inject_Z_plus in Hhi.
  change (inject_Z 1) with 1%Q in Hhi.
  apply Qabs_Qle_condition.
  unfold round_half_even.
  destruct (Qcompare (q - inject_Z (Qfloor q)) (1 # 2)) eqn:Hc.
  - apply Qeq_alt in Hc.
    destruct (Z.even (Qfloor q)); rewrite ?inject_Z_plus;
      change (inject_Z 1) with 1%Q; split; lra.
  - apply Qlt_alt in Hc. split; lra.
  - apply Qgt_alt in Hc. rewrite inject_Z_plus.
    change (inject_Z 1) with 1%Q. split; lra.
Qed.

(** ** Days and chunks *)

Lemma date_range_empty (a b : pydate) : b < a -> date_range a b = [].
Proof.
  intros H. unfold date_range.
  replace (Z.to_nat (b - a + 1)) with O by lia. reflexivity.
Qed.

Lemma date_range_cons (a b : pydate) :
  a <= b -> date_range a b = a :: date_range (a + 1) b.
Proof.
  intros H. unfold date_range.
  replace (Z.to_nat (b - a + 1)) with (S (Z.to_nat (b - (a + 1) + 1))) by lia.
  cbn [seq map]. change (Z.of_nat 0) with 0. rewrite Z.add_0_r.
  apply f_equal.
  rewrite <- seq_shift, map_map.
  apply map_ext. intros i. lia.
Qed.

Lemma map_seq_offset (f : nat -> Z) (k n : nat) :
  map f (seq k n) = map (fun i => f (k + i)%nat) (seq 0 n).
Proof.
  revert k. induction n as [| n IH]; intros k; [reflexivity |].
  cbn [seq map]. rewrite Nat.add_0_r. apply f_equal.
  rewrite (IH (S k)), <- seq_shift, map_map.
  apply map_ext. intros i. f_equal. lia.
Qed.

Lemma date_range_length (a b : pydate) :
  List.length (date_range a b) = Z.to_nat (b - a + 1).
Proof. unfold date_range. now rewrite length_map, length_seq. Qed.

Lemma In_date_range (d a b : pydate) :
  In d (date_range a b) <-> a <= d <= b.
Proof.
  unfold date_range. rewrite in_map_iff. split.
  - intros (i & <- & Hi). apply in_seq in Hi. lia.
  - intros H. exists (Z.to_nat (d - a)). split; [lia |].
    apply in_seq. lia.
Qed.

Lemma date_range_app (a m b : pydate) :
  a <= m + 1 -> m <= b ->
  date_range a b = date_range a m ++ date_range (m + 1) b.
Proof.
  intros Ham Hmb. unfold date_range.
  replace (Z.to_nat (b - a + 1))
    with (Z.to_nat (m - a + 1) + Z.to_nat (b - (m + 1) + 1))%nat by lia.
  rewrite seq_app, map_app. apply f_equal.
  cbn [Nat.add]. rewrite map_seq_offset.
  apply map_ext. intros i. lia.
Qed.

Lemma date_range_sorted (a b : pydate) :
  StronglySorted Z.lt (date_range a b).
Proof.
  remember (Z.to_nat (b - a + 1)) as n eqn:Hn.
  revert a Hn. induction n as [| n IH]; intros a Hn.
  - rewrite date_range_empty by lia. constructor.
  - rewrite date_range_cons by lia. constructor.
    + apply IH. lia.
    + apply Forall_forall. intros d Hd. apply In_date_range in Hd. lia.
Qed.

Lemma StronglySorted_lt_NoDup (l : list Z) : StronglySorted Z.lt l -> NoDup l.
Proof.
  induction 1 as [| x l Hs IH Hall]; constructor; [| exact IH].
  intros Hin. rewrite Forall_forall in Hall.
  specialize (Hall x Hin). lia.
Qed.

Lemma chunk_end_of_bounds (current end_date : pydate) :
  current <= end_date ->
  current <= chunk_end_of current end_date <= end_date /\
  chunk_end_of current end_date - current + 1 <= MAX_DAYS.
Proof. unfold chunk_end_of, MAX_DAYS. lia. Qed.

Lemma chunk_plan_tiles (fuel : nat) (current end_date : pydate) :
  current <= end_date + 1 ->
  (Z.to_nat (end_date - current + 1) <= fuel)%nat ->
  tiles end_date current (chunk_plan fuel current end_date).
Proof.
  revert current. induction fuel as [| fuel IH]; intros current Hle Hfuel.
  - assert (current = end_date + 1) as -> by lia.
    cbn. replace (end_date + 1 <=? end_date) with false by lia. constructor.
  - cbn [chunk_plan]. destruct (Z.leb_spec current end_date) as [Hin | Hout].
    + destruct (chunk_end_of_bounds current end_date Hin) as [[H1 H2] H3].
      constructor; try assumption.
      apply IH; lia.
    + assert (current = end_date + 1) as -> by lia. constructor.
Qed.

Lemma tiles_first_le (last first : pydate) plan :
  tiles last first plan -> first <= last + 1.
Proof. induction 1; lia. Qed.

Lemma tiles_days (last first : pydate) plan :
  tiles last first plan -> days_across plan = date_range first last.
Proof.
  induction 1 as [| first chunk_end rest H1 H2 H3 Ht IH].
  - rewrite date_range_empty by lia. reflexivity.
  - cbn [days_across flat_map]. fold (days_across rest).
    rewrite IH. unfold chunk_days. cbn [fst snd].
    symmetry. apply date_range_app; lia.
Qed.

Lemma tiles_bounds (last first : pydate) plan :
  tiles last first plan ->
  Forall (fun c => first <= fst c /\ fst c <= snd c /\ snd c <= last /\
                   snd c - fst c + 1 <= MAX_DAYS) plan.
Proof.
  induction 1 as [| first chunk_end rest H1 H2 H3 Ht IH]; constructor.
  - cbn. lia.
  - eapply Forall_impl; [| exact IH]. cbn. intros c Hc. lia.
Qed.

Lemma tiles_sorted (last first : pydate) plan :
  tiles last first plan -> StronglySorted Z.lt (map fst plan).
Proof.
  induction 1 as [| first chunk_end rest H1 H2 H3 Ht IH]; cbn; constructor.
  - exact IH.
  - apply Forall_map. eapply Forall_impl; [| exact (tiles_bounds _ _ _ Ht)].
    cbn. intros [a b] Hc. cbn in *. lia.
Qed.

Lemma planned_chunks_tiles (start_date end_date : pydate) :
  start_date <= end_date + 1 ->
  tiles end_date start_date (planned_chunks start_date end_date).
Proof.
  intros H. apply chunk_plan_tiles; [exact H | unfold enough_fuel; lia].
Qed.

Lemma chunk_plan_empty (fuel : nat) (current end_date : pydate) :
  end_date < current -> chunk_plan fuel current end_date = [].
Proof.
  intros H. destruct fuel; cbn;
    destruct (Z.leb_spec current end_date); try lia; reflexivity.
Qed.

(** For a range that starts at a date of the calendar and stops 30 days or
    more before [date.max], the dates that the loop computes,
    [current + timedelta(days=MAX_DAYS - 1)], [chunk_end] and
    [chunk_end + timedelta(days=1)], are dates of the calendar. *)
Lemma planned_dates_in_calendar (start_date end_date : pydate) :
  in_calendar start_date ->
  end_date + (MAX_DAYS - 1) <= MAXORDINAL ->
  MAXORDINAL = ymd2ord 9999 12 31
  /\ Forall (fun c => in_calendar (fst c)
                      /\ in_calendar (fst c + (MAX_DAYS - 1))
                      /\ in_calendar (snd c)
                      /\ in_calendar (snd c + 1))
       (planned_chunks start_date end_date).
Proof.
  unfold in_calendar, MAX_DAYS. intros Hs He. split; [reflexivity |].
  destruct (Z.le_gt_cases start_date end_date) as [Hle | Hgt].
  - eapply Forall_impl;
      [| exact (tiles_bounds _ _ _
                  (planned_chunks_tiles start_date end_date ltac:(lia)))].
    intros [a b]. cbn [fst snd]. lia.
  - unfold planned_chunks. rewrite chunk_plan_empty by lia. constructor.
Qed.

Lemma chunk_plan_more_fuel (fuel1 fuel2 : nat) (current end_date : pydate) :
  (Z.to_nat (end_date - current + 1) <= fuel1)%nat ->
  (Z.to_nat (end_date - current + 1) <= fuel2)%nat ->
  chunk_plan fuel1 current end_date = chunk_plan fuel2 current end_date.
Proof.
  revert fuel2 current.
  induction fuel1 as [| fuel1 IH]; intros fuel2 current H1 H2.
  - rewrite !chunk_plan_empty by lia. reflexivity.
  - destruct (Z.leb_spec current end_date) as [Hin | Hout].
    + destruct fuel2 as [| fuel2]; [lia |].
      cbn [chunk_plan]. destruct (Z.leb_spec current end_date); [| lia].
      pose proof (chunk_end_of_bounds current end_date Hin).
      f_equal. apply IH; lia.
    + rewrite !chunk_plan_empty by lia. reflexivity.
Qed.

(** ** One fetch *)

Section Facts.

Context {World : Type}.
Variable http_get : request -> World -> http_result * World.
Variables API_KEY SITE_ID : string.

Local Abbreviation fetch := (fetch_single_chunk http_get API_KEY SITE_ID).
Local Abbreviation fetch_w := (fetch_in_world http_get API_KEY SITE_ID).
Local Abbreviation per_day := (per_day_fetch http_get API_KEY SITE_ID).
Local Abbreviation retry := (retry_days http_get API_KEY SITE_ID).
Local Abbreviation chunk := (process_chunk http_get API_KEY SITE_ID).
Local Abbreviation loop := (fetch_loop http_get API_KEY SITE_ID).
Local Abbreviation chunks := (fetch_chunks http_get API_KEY SITE_ID).
Local Abbreviation fetch_all := (fetch_energy_chunked http_get API_KEY SITE_ID).
Local Abbreviation req := (energy_request API_KEY SITE_ID).

Lemma fetch_single_chunk_eq tu a b (st : state World) :
  fetch tu a b st =
  match http_get (req tu a b) (world st) with
  | (GetRaises e, w) => (Raised e, mkState w (warnings st))
  | (GetReturns r, w) =>
      if http_error_status (status_code r)
      then (Raised (HTTPError (status_code r)), mkState w (warnings st))
      else (Done (map normalize (energy_values r)), mkState w (warnings st))
  end.
Proof.
  unfold fetch_single_chunk, bind, requests_get, raise_for_status,
    energy_request.
  destruct (http_get _ (world st)) as [[e | r] w]; [reflexivity |].
  destruct (http_error_status (status_code r)); [reflexivity |].
  unfold ret. destruct (energy_values r); reflexivity.
Qed.

Lemma fetch_in_world_eq tu a b (w : World) :
  fetch_w tu a b w =
  match http_get (req tu a b) w with
  | (GetRaises e, w') => (Raised e, w')
  | (GetReturns r, w') =>
      if http_error_status (status_code r)
      then (Raised (HTTPError (status_code r)), w')
      else (Done (map normalize (energy_values r)), w')
  end.
Proof.
  unfold fetch_in_world. rewrite fetch_single_chunk_eq. simpl.
  destruct (http_get _ w) as [[e | r] w']; [reflexivity |].
  destruct (http_error_status (status_code r)); reflexivity.
Qed.

(** A fetch reads and changes the world only; the warnings stay. *)
Lemma fetch_by_world tu a b (st : state World) :
  fetch tu a b st =
  (fst (fetch_w tu a b (world st)),
   mkState (snd (fetch_w tu a b (world st))) (warnings st)).
Proof.
  rewrite fetch_single_chunk_eq, fetch_in_world_eq.
  destruct (http_get _ (world st)) as [[e | r] w]; [reflexivity |].
  destruct (http_error_status (status_code r)); reflexivity.
Qed.

Lemma fetch_in_world_fuel tu a b (w : World) :
  fst (fetch_w tu a b w) <> OutOfFuel.
Proof.
  rewrite fetch_in_world_eq.
  destruct (http_get _ w) as [[e | r] w']; [discriminate |].
  destruct (http_error_status (status_code r)); discriminate.
Qed.

(** ** The day-level fallback *)

Lemma append_nonempty_app (frames : list DataFrame) (df : DataFrame) :
  append_nonempty frames df = frames ++ append_nonempty [] df.
Proof.
  unfold append_nonempty. destruct (empty df); [now rewrite app_nil_r | easy].
Qed.

Lemma pd_concat_append_nonempty (frames : list DataFrame) (df : DataFrame) :
  pd_concat (append_nonempty frames df) = pd_concat frames ++ df.
Proof.
  unfold append_nonempty, pd_concat. destruct df as [| r df]; cbn [empty].
  - now rewrite app_nil_r.
  - rewrite concat_app. cbn. now rewrite app_nil_r.
Qed.

Lemma retry_day_eq tu d frames (st : state World) :
  retry_day http_get API_KEY SITE_ID tu d frames st =
  match fetch_w tu d d (world st) with
  | (Done df, w) => (Done (append_nonempty frames df), mkState w (warnings st))
  | (Raised e, w) =>
      (Done frames, mkState w (warnings st ++ [SkippedDay d e]))
  | (OutOfFuel, w) => (OutOfFuel, mkState w (warnings st))
  end.
Proof.
  unfold retry_day, try_except, bind. rewrite fetch_by_world.
  destruct (fetch_w tu d d (world st)) as [[df | e | ] w]; reflexivity.
Qed.

(** The fallback goes through the days as a direct per-day fetch does, keeps
    the frames that are not empty and warns of every day that failed. *)
Lemma retry_days_eq tu days frames (st : state World) :
  retry tu days frames st =
  (Done (frames ++ kept_frames (fst (per_day tu days (world st)))),
   mkState (snd (per_day tu days (world st)))
     (warnings st ++ skipped_days days (fst (per_day tu days (world st))))).
Proof.
  revert frames st. induction days as [| d days IH]; intros frames st.
  - cbn. rewrite !app_nil_r. now destruct st.
  - cbn [retry_days per_day_fetch]. unfold bind. rewrite retry_day_eq.
    pose proof (fetch_in_world_fuel tu d d (world st)) as Hfuel.
    destruct (fetch_w tu d d (world st)) as [[df | e | ] w];
      [| | now elim Hfuel]; rewrite IH; cbn [world warnings];
      destruct (per_day tu days w) as [rs w2]; cbn [fst snd kept_frames
        skipped_days].
    + rewrite (append_nonempty_app frames df), <- app_assoc. reflexivity.
    + rewrite <- app_assoc. reflexivity.
Qed.

Lemma per_day_fetch_length tu days (w : World) :
  List.length (fst (per_day tu days w)) = List.length days.
Proof.
  revert w. induction days as [| d days IH]; intros w; [reflexivity |].
  cbn [per_day_fetch].
  destruct (fetch_w tu d d w) as [r w1].
  specialize (IH w1). destruct (per_day tu days w1) as [rs w2].
  cbn [fst List.length] in *. now rewrite IH.
Qed.

Lemma per_day_fetch_all tu days (w : World) (P : result DataFrame -> Prop) :
  (forall d w', In d days -> P (fst (fetch_w tu d d w'))) ->
  Forall P (fst (per_day tu days w)).
Proof.
  revert w. induction days as [| d days IH]; intros w HP; [constructor |].
  cbn [per_day_fetch].
  pose proof (HP d w (or_introl eq_refl)) as Hd.
  destruct (fetch_w tu d d w) as [r w1].
  assert (Hrest : Forall P (fst (per_day tu days w1)))
    by (apply IH; intros d' w' Hin; apply HP; now right).
  destruct (per_day tu days w1) as [rs w2].
  cbn [fst] in *. constructor; assumption.
Qed.

(** ** One turn of the loop *)

Lemma process_chunk_eq tu current chunk_end frames (st : state World) :
  chunk tu current chunk_end frames st =
  match fetch_w tu current chunk_end (world st) with
  | (Done df, w) =>
      (Done (append_nonempty frames df, chunk_end + 1),
       mkState w (warnings st))
  | (Raised e, w) =>
      if is_HTTPError e then
        let days := date_range current chunk_end in
        (Done (frames ++ kept_frames (fst (per_day tu days w)),
               chunk_end + 1),
         mkState (snd (per_day tu days w))
           (warnings st ++ FailedChunk current chunk_end
              :: skipped_days days (fst (per_day tu days w))))
      else (Raised e, mkState w (warnings st))
  | (OutOfFuel, w) => (OutOfFuel, mkState w (warnings st))
  end.
Proof.
  unfold process_chunk, try_except, bind. rewrite fetch_by_world.
  destruct (fetch_w tu current chunk_end (world st)) as [[df | e | ] w];
    try reflexivity.
  cbn [fst snd]. destruct (is_HTTPError e); [| reflexivity].
  unfold st_warning. rewrite retry_days_eq. cbn [world warnings ret].
  rewrite <- app_assoc. reflexivity.
Qed.

Lemma process_chunk_fuel tu current chunk_end frames (st : state World) :
  fst (chunk tu current chunk_end frames st) <> OutOfFuel.
Proof.
  rewrite process_chunk_eq.
  pose proof (fetch_in_world_fuel tu current chunk_end (world st)) as Hfuel.
  destruct (fetch_w tu current chunk_end (world st)) as [[df | e | ] w];
    [discriminate | | now elim Hfuel].
  destruct (is_HTTPError e); discriminate.
Qed.

Lemma process_chunk_cursor tu current chunk_end frames (st st' : state World)
    p :
  chunk tu current chunk_end frames st = (Done p, st') ->
  snd p = chunk_end + 1.
Proof.
  rewrite process_chunk_eq.
  destruct (fetch_w tu current chunk_end (world st)) as [[df | e | ] w];
    [| destruct (is_HTTPError e) |]; intros H; inversion H; reflexivity.
Qed.

Lemma process_chunk_raises tu current chunk_end frames (st st' : state World)
    e :
  chunk tu current chunk_end frames st = (Raised e, st') ->
  is_HTTPError e = false /\
  fetch tu current chunk_end st = (Raised e, st').
Proof.
  rewrite process_chunk_eq, fetch_by_world.
  destruct (fetch_w tu current chunk_end (world st)) as [[df | e' | ] w];
    [discriminate | | discriminate].
  destruct (is_HTTPError e') eqn:He; [discriminate |].
  intros H. inversion H; subst. auto.
Qed.

Lemma process_chunk_grows tu current chunk_end frames (st st' : state World)
    p :
  chunk tu current chunk_end frames st = (Done p, st') ->
  exists later ws,
    fst p = frames ++ later /\ warnings st' = warnings st ++ ws.
Proof.
  rewrite process_chunk_eq.
  destruct (fetch_w tu current chunk_end (world st)) as [[df | e | ] w];
    [| destruct (is_HTTPError e) |]; intros H; inversion H; subst;
    cbn [fst warnings].
  - exists (append_nonempty [] df), []. rewrite app_nil_r.
    split; [apply append_nonempty_app | reflexivity].
  - eauto.
Qed.

(** ** The loop *)

Lemma fetch_loop_step fuel tu current end_date frames (st : state World) :
  current <= end_date ->
  loop (S fuel) tu current end_date frames st =
  match chunk tu current (chunk_end_of current end_date) frames st with
  | (Done p, st') => loop fuel tu (snd p) end_date (fst p) st'
  | (Raised e, st') => (Raised e, st')
  | (OutOfFuel, st') => (OutOfFuel, st')
  end.
Proof.
  intros H. cbn [fetch_loop].
  destruct (Z.leb_spec current end_date); [reflexivity | lia].
Qed.

Lemma fetch_loop_exit fuel tu current end_date frames (st : state World) :
  end_date < current ->
  loop fuel tu current end_date frames st = (Done frames, st).
Proof.
  intros H. destruct fuel; cbn [fetch_loop];
    destruct (Z.leb_spec current end_date); try lia; reflexivity.
Qed.

(** With fuel for every day left, the loop is the processing of the planned
    chunks. *)
Lemma fetch_loop_chunks fuel tu current end_date frames (st : state World) :
  (Z.to_nat (end_date - current + 1) <= fuel)%nat ->
  loop fuel tu current end_date frames st =
  chunks tu (chunk_plan fuel current end_date) frames st.
Proof.
  revert current frames st.
  induction fuel as [| fuel IH]; intros current frames st Hfuel.
  - rewrite fetch_loop_exit, chunk_plan_empty by lia. reflexivity.
  - destruct (Z.leb_spec current end_date) as [Hin | Hout].
    + rewrite fetch_loop_step by exact Hin.
      cbn [chunk_plan]. destruct (Z.leb_spec current end_date); [| lia].
      cbn [fetch_chunks]. unfold bind.
      destruct (chunk tu current (chunk_end_of current end_date) frames st)
        as [[p | e | ] st'] eqn:Hp; try reflexivity.
      rewrite (process_chunk_cursor _ _ _ _ _ _ _ Hp).
      apply IH.
      pose proof (chunk_end_of_bounds current end_date Hin). lia.
    + rewrite fetch_loop_exit, chunk_plan_empty by lia. reflexivity.
Qed.

Lemma fetch_chunks_fuel tu plan frames (st : state World) :
  fst (chunks tu plan frames st) <> OutOfFuel.
Proof.
  revert frames st. induction plan as [| [a b] plan IH]; intros frames st.
  - discriminate.
  - cbn [fetch_chunks]. unfold bind.
    pose proof (process_chunk_fuel tu a b frames st) as Hfuel.
    destruct (chunk tu a b frames st) as [[p | e | ] st'];
      [apply IH | discriminate | now elim Hfuel].
Qed.

Lemma fetch_chunks_raises tu plan frames (st st' : state World) e :
  chunks tu plan frames st = (Raised e, st') -> is_HTTPError e = false.
Proof.
  revert frames st. induction plan as [| [a b] plan IH]; intros frames st.
  - discriminate.
  - cbn [fetch_chunks]. unfold bind.
    destruct (chunk tu a b frames st) as [[p | e' | ] st1] eqn:Hp.
    + apply IH.
    + intros H. inversion H; subst.
      now apply process_chunk_raises in Hp.
    + discriminate.
Qed.

Lemma fetch_energy_chunked_plan tu start_date end_date (st : state World) :
  fetch_all tu start_date end_date st =
  match chunks tu (planned_chunks start_date end_date) [] st with
  | (Done frames, st') => (Done (assemble frames), st')
  | (Raised e, st') => (Raised e, st')
  | (OutOfFuel, st') => (OutOfFuel, st')
  end.
Proof.
  unfold fetch_energy_chunked, bind, planned_chunks.
  rewrite fetch_loop_chunks by (unfold enough_fuel; lia).
  reflexivity.
Qed.

(** The frames and the warnings only grow along the loop. *)
Lemma fetch_loop_grows fuel tu current end_date frames (st st' : state World)
    final :
  loop fuel tu current end_date frames st = (Done final, st') ->
  exists later ws,
    final = frames ++ later /\ warnings st' = warnings st ++ ws.
Proof.
  revert current frames st.
  induction fuel as [| fuel IH]; intros current frames st.
  - cbn [fetch_loop]. destruct (current <=? end_date); [discriminate |].
    intros H. inversion H; subst. exists [], []. now rewrite !app_nil_r.
  - destruct (Z.leb_spec current end_date) as [Hin | Hout].
    + rewrite fetch_loop_step by exact Hin.
      destruct (chunk tu current (chunk_end_of current end_date) frames st)
        as [[p | e | ] st1] eqn:Hp; try discriminate.
      intros H. apply IH in H. destruct H as (later2 & ws2 & Hf & Hw).
      apply process_chunk_grows in Hp.
      destruct Hp as (later1 & ws1 & Hf1 & Hw1).
      exists (later1 ++ later2), (ws1 ++ ws2).
      rewrite Hf, Hf1, Hw, Hw1, !app_assoc. split; reflexivity.
    + rewrite fetch_loop_exit by exact Hout.
      intros H. inversion H; subst. exists [], []. now rewrite !app_nil_r.
Qed.

End Facts.

(** ** Frames and rows *)

Lemma assemble_eq (frames : list DataFrame) :
  assemble frames = pd_concat frames.
Proof. destruct frames; reflexivity. Qed.

Lemma pd_concat_app (f1 f2 : list DataFrame) :
  pd_concat (f1 ++ f2) = pd_concat f1 ++ pd_concat f2.
Proof. apply concat_app. Qed.

Lemma pd_concat_kept_frames (outcomes : list (result DataFrame)) :
  pd_concat (kept_frames outcomes) = flat_map rows_of outcomes.
Proof.
  induction outcomes as [| [df | e | ] rest IH]; cbn [kept_frames flat_map];
    try exact IH; [reflexivity |].
  rewrite pd_concat_app, IH, pd_concat_append_nonempty. reflexivity.
Qed.

Lemma kept_frames_app (o1 o2 : list (result DataFrame)) :
  kept_frames (o1 ++ o2) = kept_frames o1 ++ kept_frames o2.
Proof.
  induction o1 as [| [df | e | ] rest IH]; cbn [kept_frames app];
    try exact IH; [reflexivity |].
  rewrite IH, app_assoc. reflexivity.
Qed.

Lemma kept_frames_nonempty (dfs : list DataFrame) :
  Forall (fun df => df <> []) dfs -> kept_frames (map Done dfs) = dfs.
Proof.
  induction 1 as [| df dfs Hdf Hall IH]; [reflexivity |].
  cbn [map kept_frames]. rewrite IH.
  destruct df; [contradiction | reflexivity].
Qed.

Lemma skipped_days_done (days : list pydate) (dfs : list DataFrame) :
  skipped_days days (map Done dfs) = [].
Proof.
  revert days. induction dfs as [| df dfs IH]; intros [| d days];
    cbn [map skipped_days]; auto.
Qed.

Lemma skipped_days_app (d1 d2 : list pydate)
    (o1 o2 : list (result DataFrame)) :
  List.length o1 = List.length d1 ->
  skipped_days (d1 ++ d2) (o1 ++ o2) = skipped_days d1 o1 ++ skipped_days d2 o2.
Proof.
  revert o1. induction d1 as [| d d1 IH]; intros [| o o1] Hlen;
    try discriminate; [reflexivity |].
  cbn [app skipped_days]. injection Hlen as Hlen.
  destruct o; rewrite IH by exact Hlen; reflexivity.
Qed.

Lemma Forall_succeeded_map (outcomes : list (result DataFrame)) :
  Forall succeeded outcomes -> outcomes = map Done (map rows_of outcomes).
Proof.
  induction 1 as [| o rest [df ->] Hall IH]; [reflexivity |].
  cbn [map rows_of]. now rewrite <- IH.
Qed.

Lemma all_failed (days : list pydate) (outcomes : list (result DataFrame)) :
  List.length outcomes = List.length days ->
  Forall failed outcomes ->
  kept_frames outcomes = []
  /\ List.length (skipped_days days outcomes) = List.length days.
Proof.
  intros Hlen Hall. revert days Hlen.
  induction Hall as [| o rest [e ->] Hall IH]; intros [| d days] Hlen;
    try discriminate; [split; reflexivity |].
  injection Hlen as Hlen. destruct (IH days Hlen) as [Hk Hs].
  cbn [kept_frames skipped_days List.length]. rewrite Hs. auto.
Qed.

(** * The claims *)

Section Claims.

Context {World : Type}.
Variable http_get : request -> World -> http_result * World.
Variables API_KEY SITE_ID : string.

Local Abbreviation fetch := (fetch_single_chunk http_get API_KEY SITE_ID).
Local Abbreviation fetch_w := (fetch_in_world http_get API_KEY SITE_ID).
Local Abbreviation per_day := (per_day_fetch http_get API_KEY SITE_ID).
Local Abbreviation chunk := (process_chunk http_get API_KEY SITE_ID).
Local Abbreviation loop := (fetch_loop http_get API_KEY SITE_ID).
Local Abbreviation chunks := (fetch_chunks http_get API_KEY SITE_ID).
Local Abbreviation fetch_all := (fetch_energy_chunked http_get API_KEY SITE_ID).
Local Abbreviation req := (energy_request API_KEY SITE_ID).

(** C3: every row that [fetch_single_chunk] returns is the normalization of
    a sample of the response; normalization puts 0 for a missing value,
    takes hour + minute/60 as the fractional hour, and takes as rounded hour
    the fractional hour rounded to the nearest integer.  A sample with a null
    value gets the value 0, and a timestamp at 14:40 the rounded hour 15. *)
Theorem normalization_rules tu a b (st : state World) :
  (forall s : raw_sample,
      value (normalize s) = match raw_value s with
                            | Some v => v
                            | None => 0%Q
                            end
      /\ hour (normalize s)
         = (inject_Z (ts_hour (raw_date s))
            + inject_Z (ts_minute (raw_date s)) / 60)%Q
      /\ hour_rounded (normalize s) = round_half_even (hour (normalize s))
      /\ (Qabs (inject_Z (hour_rounded (normalize s)) - hour (normalize s))
          <= 1 # 2)%Q)
  /\ rows_of (fst (fetch tu a b st))
     = match fst (http_get (req tu a b) (world st)) with
       | GetReturns r =>
           if http_error_status (status_code r) then []
           else map normalize (energy_values r)
       | GetRaises _ => []
       end
  /\ value (normalize sample_null_1440) = 0%Q
  /\ ts_hour (datetime (normalize sample_null_1440)) = 14
  /\ ts_minute (datetime (normalize sample_null_1440)) = 40
  /\ hour_rounded (normalize sample_null_1440) = 15.
Proof.
  split; [| split].
  - intros s. split; [| split; [| split]].
    + destruct s as [dt [v |]]; reflexivity.
    + reflexivity.
    + reflexivity.
    + apply round_half_even_nearest.
  - rewrite fetch_single_chunk_eq.
    destruct (http_get (req tu a b) (world st)) as [[e | r] w]; cbn [fst].
    + reflexivity.
    + destruct (http_error_status (status_code r)); reflexivity.
  - split; [| split; [| split]]; reflexivity.
Qed.

(** C2: for a range with start <= end, the chunks that the fetch loop goes
    through are contiguous (each starts the day after the one before it
    stopped, the first at the start date, the last stopping at the end date),
    hold between 1 and 31 days, come in ascending order of start date, do not
    overlap, and their days are exactly the days of the range. *)
Theorem chunk_partition tu start_date end_date (st : state World) :
  start_date <= end_date ->
  let plan := planned_chunks start_date end_date in
  fetch_all tu start_date end_date st
  = match chunks tu plan [] st with
    | (Done frames, st') => (Done (assemble frames), st')
    | (Raised e, st') => (Raised e, st')
    | (OutOfFuel, st') => (OutOfFuel, st')
    end
  /\ tiles end_date start_date plan
  /\ StronglySorted Z.lt (map fst plan)
  /\ Forall (fun c => start_date <= fst c /\ fst c <= snd c
                      /\ snd c <= end_date
                      /\ (1 <= List.length (chunk_days c) <= 31)%nat) plan
  /\ days_across plan = date_range start_date end_date
  /\ NoDup (days_across plan)
  /\ (forall d, In d (days_across plan) <-> start_date <= d <= end_date).
Proof.
  intros Hle plan.
  assert (Ht : tiles end_date start_date plan)
    by (apply planned_chunks_tiles; lia).
  pose proof (tiles_days _ _ _ Ht) as Hdays.
  split; [apply fetch_energy_chunked_plan |].
  split; [exact Ht |].
  split; [exact (tiles_sorted _ _ _ Ht) |].
  split.
  { eapply Forall_impl; [| exact (tiles_bounds _ _ _ Ht)].
    intros [a b]. unfold chunk_days, MAX_DAYS. cbn [fst snd].
    rewrite date_range_length. lia. }
  split; [exact Hdays |].
  rewrite Hdays. split.
  - apply StronglySorted_lt_NoDup, date_range_sorted.
  - intros d. apply In_date_range.
Qed.

(** C7: when the end date is before the start date, no chunk is planned and
    [fetch_energy_chunked] returns the empty dataset and leaves the state as
    it was: it raises nothing, warns of nothing, and, the remote being any
    remote, the log of a recording one included, sends no request. *)
Theorem reversed_range_is_empty tu start_date end_date (st : state World)
    (st_rec : state (World * list request)) :
  end_date < start_date ->
  planned_chunks start_date end_date = []
  /\ fetch_all tu start_date end_date st = (Done [], st)
  /\ fetch_energy_chunked (recording http_get) API_KEY SITE_ID tu
       start_date end_date st_rec = (Done [], st_rec).
Proof.
  intros Hlt. split; [| split].
  - apply chunk_plan_empty. exact Hlt.
  - unfold fetch_energy_chunked, bind.
    rewrite fetch_loop_exit by exact Hlt. reflexivity.
  - unfold fetch_energy_chunked, bind.
    rewrite fetch_loop_exit by exact Hlt. reflexivity.
Qed.

(** C10: the loop of [fetch_energy_chunked] terminates for every pair of
    dates: a turn that completes, on the success branch as on the failure
    branch, leaves the cursor one day after the end of the chunk, which is
    after the cursor of that turn, so the number of days left decreases, and
    the chunks visited stop at the end date, where the cursor passes it; with
    one unit of fuel per day of the range the loop never runs out of fuel,
    and more fuel does not change its result. *)
Theorem fetch_loop_terminates fuel tu current end_date frames
    (st : state World) :
  (Z.to_nat (end_date - current + 1) <= fuel)%nat ->
  fst (loop fuel tu current end_date frames st) <> OutOfFuel
  /\ loop fuel tu current end_date frames st
     = loop (enough_fuel current end_date) tu current end_date frames st
  /\ fst (fetch_all tu current end_date st) <> OutOfFuel
  /\ (forall p st',
        chunk tu current (chunk_end_of current end_date) frames st
        = (Done p, st') ->
        snd p = chunk_end_of current end_date + 1)
  /\ (current <= end_date ->
      current < chunk_end_of current end_date + 1
      /\ (Z.to_nat (end_date - (chunk_end_of current end_date + 1) + 1)
          < Z.to_nat (end_date - current + 1))%nat)
  /\ (current <= end_date + 1 ->
      tiles end_date current (chunk_plan fuel current end_date)).
Proof.
  intros Hfuel. split; [| split; [| split; [| split; [| split]]]].
  - rewrite fetch_loop_chunks by exact Hfuel. apply fetch_chunks_fuel.
  - rewrite !fetch_loop_chunks by (unfold enough_fuel; lia).
    f_equal. apply chunk_plan_more_fuel; unfold enough_fuel; lia.
  - rewrite fetch_energy_chunked_plan.
    pose proof (fetch_chunks_fuel http_get API_KEY SITE_ID tu
                  (planned_chunks current end_date) [] st) as H.
    destruct (chunks tu (planned_chunks current end_date) [] st)
      as [[fr | e | ] st']; [discriminate | discriminate | now elim H].
  - intros p st' Hp. exact (process_chunk_cursor _ _ _ _ _ _ _ _ _ _ Hp).
  - intros Hin. pose proof (chunk_end_of_bounds current end_date Hin). lia.
  - intros Hle. apply chunk_plan_tiles; assumption.
Qed.

(** C1, as the code has it: when the fetch of a chunk of the loop fails with
    an [HTTPError] (the error of [raise_for_status] on a 4xx or 5xx status),
    the turn of the loop raises nothing: it warns of the failed chunk, goes
    through the days of the chunk, warns of every day that fails, for
    whatever cause, and the loop goes on with the next chunk; no [HTTPError]
    ever leaves [fetch_energy_chunked]. *)
Theorem http_failure_absorbed fuel tu current end_date frames
    (st : state World) status w1 :
  current <= end_date ->
  fetch_w tu current (chunk_end_of current end_date) (world st)
  = (Raised (HTTPError status), w1) ->
  let chunk_end := chunk_end_of current end_date in
  let days := date_range current chunk_end in
  let outcomes := fst (per_day tu days w1) in
  let st' := mkState (snd (per_day tu days w1))
               (warnings st ++ FailedChunk current chunk_end
                  :: skipped_days days outcomes) in
  chunk tu current chunk_end frames st
  = (Done (frames ++ kept_frames outcomes, chunk_end + 1), st')
  /\ loop (S fuel) tu current end_date frames st
     = loop fuel tu (chunk_end + 1) end_date
         (frames ++ kept_frames outcomes) st'
  /\ (forall start_date st0,
        match fetch_all tu start_date end_date st0 with
        | (Raised e, _) => is_HTTPError e = false
        | (OutOfFuel, _) => False
        | (Done _, _) => True
        end).
Proof.
  intros Hin Hfetch chunk_end days outcomes st'.
  assert (Hchunk : chunk tu current chunk_end frames st
                   = (Done (frames ++ kept_frames outcomes, chunk_end + 1),
                      st')).
  { subst st' outcomes days chunk_end.
    rewrite process_chunk_eq, Hfetch. reflexivity. }
  split; [exact Hchunk | split].
  - rewrite fetch_loop_step by exact Hin. fold chunk_end.
    rewrite Hchunk. reflexivity.
  - intros start_date st0. rewrite fetch_energy_chunked_plan.
    pose proof (fetch_chunks_fuel http_get API_KEY SITE_ID tu
                  (planned_chunks start_date end_date) [] st0) as Hfuel.
    destruct (chunks tu (planned_chunks start_date end_date) [] st0)
      as [[fr | e | ] st1] eqn:Hrun.
    + exact I.
    + exact (fetch_chunks_raises _ _ _ _ _ _ _ _ _ Hrun).
    + now elim Hfuel.
Qed.

(** C4, as the code has it: when the fetch of a chunk fails with an
    [HTTPError] and the fetch of every day of the chunk then succeeds, the
    rows that the fallback adds to the accumulated frames are the rows of a
    direct per-day fetch of the days of the chunk, in ascending order of the
    days, and the only warning is that of the failed chunk. *)
Theorem fallback_equals_per_day tu current chunk_end frames
    (st : state World) status w1 :
  fetch_w tu current chunk_end (world st)
  = (Raised (HTTPError status), w1) ->
  Forall succeeded (fst (per_day tu (date_range current chunk_end) w1)) ->
  exists frames',
    chunk tu current chunk_end frames st
    = (Done (frames', chunk_end + 1),
       mkState (snd (per_day tu (date_range current chunk_end) w1))
         (warnings st ++ [FailedChunk current chunk_end]))
    /\ pd_concat frames'
       = pd_concat frames
         ++ flat_map rows_of
              (fst (per_day tu (date_range current chunk_end) w1))
    /\ StronglySorted Z.lt (date_range current chunk_end).
Proof.
  intros Hfetch Hok.
  exists (frames
          ++ kept_frames (fst (per_day tu (date_range current chunk_end) w1))).
  split; [| split].
  - rewrite process_chunk_eq, Hfetch. cbn [is_HTTPError].
    rewrite (Forall_succeeded_map _ Hok) at 2.
    rewrite skipped_days_done. reflexivity.
  - rewrite pd_concat_app, pd_concat_kept_frames. reflexivity.
  - apply date_range_sorted.
Qed.

(** C5, as the code has it: when the fetch of a chunk of the loop fails with
    an [HTTPError], one day of the chunk fails again in the fallback, and the
    other days, of which there is at least one, succeed with data, the turn
    of the loop appends the frames of the other days, in their order, and
    warns of the chunk and of the lost day; whatever dataset the loop then
    ends with contains the rows of those days and is not empty, and the
    warning of the lost day is among the warnings. *)
Theorem one_day_lost_rest_kept fuel tu current end_date frames
    (st : state World) status w1 before bad after dfs_before e dfs_after :
  current <= end_date ->
  let chunk_end := chunk_end_of current end_date in
  fetch_w tu current chunk_end (world st) = (Raised (HTTPError status), w1) ->
  date_range current chunk_end = before ++ bad :: after ->
  fst (per_day tu (date_range current chunk_end) w1)
  = map Done dfs_before ++ Raised e :: map Done dfs_after ->
  List.length dfs_before = List.length before ->
  Forall (fun df => df <> []) (dfs_before ++ dfs_after) ->
  dfs_before ++ dfs_after <> [] ->
  chunk tu current chunk_end frames st
  = (Done (frames ++ dfs_before ++ dfs_after, chunk_end + 1),
     mkState (snd (per_day tu (date_range current chunk_end) w1))
       (warnings st ++ [FailedChunk current chunk_end; SkippedDay bad e]))
  /\ (forall final st_end,
        loop (S fuel) tu current end_date frames st = (Done final, st_end) ->
        (exists earlier later,
            assemble final
            = earlier ++ pd_concat (dfs_before ++ dfs_after) ++ later)
        /\ assemble final <> []
        /\ In (SkippedDay bad e) (warnings st_end)).
Proof.
  intros Hin chunk_end Hfetch Hdays Hout Hlen Hdata Hsome.
  apply Forall_app in Hdata. destruct Hdata as [Hd1 Hd2].
  assert (Hchunk :
    chunk tu current chunk_end frames st
    = (Done (frames ++ dfs_before ++ dfs_after, chunk_end + 1),
       mkState (snd (per_day tu (date_range current chunk_end) w1))
         (warnings st ++ [FailedChunk current chunk_end; SkippedDay bad e]))).
  { rewrite process_chunk_eq, Hfetch. cbn [is_HTTPError].
    rewrite Hout, Hdays.
    rewrite kept_frames_app. cbn [kept_frames].
    rewrite !kept_frames_nonempty by assumption.
    rewrite skipped_days_app by (now rewrite length_map).
    cbn [skipped_days]. rewrite !skipped_days_done. reflexivity. }
  split; [exact Hchunk |].
  intros final st_end Hrun.
  rewrite fetch_loop_step in Hrun by exact Hin.
  fold chunk_end in Hrun. rewrite Hchunk in Hrun. cbn [fst snd] in Hrun.
  apply fetch_loop_grows in Hrun. destruct Hrun as (later & ws & Hf & Hw).
  cbn [warnings] in Hw.
  assert (Hrows : assemble final
                  = pd_concat frames ++ pd_concat (dfs_before ++ dfs_after)
                    ++ pd_concat later).
  { rewrite assemble_eq, Hf, !pd_concat_app, <- !app_assoc. reflexivity. }
  split; [| split].
  - eauto.
  - rewrite Hrows. intros Hnil.
    apply app_eq_nil in Hnil. destruct Hnil as [_ Hnil].
    apply app_eq_nil in Hnil. destruct Hnil as [Hnil _].
    assert (Hall : Forall (fun df : DataFrame => df <> [])
                     (dfs_before ++ dfs_after))
      by (apply Forall_app; auto).
    destruct (dfs_before ++ dfs_after) as [| df rest]; [contradiction |].
    inversion Hall; subst. unfold pd_concat in Hnil. cbn in Hnil.
    apply app_eq_nil in Hnil. tauto.
  - rewrite Hw. apply in_or_app. left. apply in_or_app. right.
    cbn. auto.
Qed.

(** C6, as the code has it: when the fetch of every planned chunk fails with
    an [HTTPError] and the fetch of every single day fails, for whatever
    cause, [fetch_energy_chunked] returns the empty dataset, of length 0, and
    the warnings it emits are as many as the chunks plus the days of the
    chunks. *)
Theorem total_failure tu start_date end_date (st : state World) :
  (forall c w, In c (planned_chunks start_date end_date) ->
     exists status w',
       fetch_w tu (fst c) (snd c) w = (Raised (HTTPError status), w')) ->
  (forall d w, start_date <= d <= end_date ->
     failed (fst (fetch_w tu d d w))) ->
  exists dataset emitted w',
    fetch_all tu start_date end_date st
    = (Done dataset, mkState w' (warnings st ++ emitted))
    /\ dataset = []
    /\ List.length dataset = 0%nat
    /\ List.length emitted
       = (List.length (planned_chunks start_date end_date)
          + List.length (days_across (planned_chunks start_date end_date)))%nat.
Proof.
  intros Hchunks Hdays.
  rewrite fetch_energy_chunked_plan.
  assert (Hin : Forall (fun c => start_date <= fst c /\ snd c <= end_date)
                  (planned_chunks start_date end_date)).
  { destruct (Z.le_gt_cases start_date end_date) as [Hle | Hgt].
    - eapply Forall_impl;
        [| exact (tiles_bounds _ _ _
                    (planned_chunks_tiles start_date end_date ltac:(lia)))].
      cbn. intros c Hc. lia.
    - unfold planned_chunks. rewrite chunk_plan_empty by lia. constructor. }
  assert (Hrun : exists emitted w',
    chunks tu (planned_chunks start_date end_date) [] st
    = (Done [], mkState w' (warnings st ++ emitted))
    /\ List.length emitted
       = (List.length (planned_chunks start_date end_date)
          + List.length (days_across (planned_chunks start_date end_date)))%nat).
  { revert st Hchunks Hin.
    induction (planned_chunks start_date end_date) as [| [a b] plan IH];
      intros st Hchunks Hin.
    - exists [], (world st). rewrite app_nil_r. destruct st. auto.
    - cbn [fetch_chunks]. unfold bind. rewrite process_chunk_eq.
      destruct (Hchunks (a, b) (world st) (or_introl eq_refl))
        as (status & w1 & Hfetch).
      inversion Hin as [| c plan' [Ha Hb] Hin']; subst.
      cbn [fst snd] in *. rewrite Hfetch. cbn [is_HTTPError fst snd].
      destruct (all_failed (date_range a b)
                  (fst (per_day tu (date_range a b) w1))) as [Hkept Hskip].
      { apply per_day_fetch_length. }
      { apply per_day_fetch_all. intros d w' Hd. apply Hdays.
        apply In_date_range in Hd. lia. }
      rewrite Hkept. cbn [app].
      edestruct IH as (emitted & w' & Hrest & Hcount).
      { intros c w Hc. apply Hchunks. now right. }
      { exact Hin'. }
      rewrite Hrest. cbn [warnings].
      eexists (_ :: _ ++ emitted), w'. split.
      + rewrite <- app_assoc. reflexivity.
      + cbn [List.length days_across flat_map]. fold (days_across plan).
        rewrite !length_app, Hcount, Hskip. unfold chunk_days. cbn [fst snd].
        lia. }
  destruct Hrun as (emitted & w' & Hrun & Hcount).
  exists [], emitted, w'. rewrite Hrun. auto.
Qed.

Section Deterministic.

Variable respond : request -> http_result.
Hypothesis unchanged_remote :
  forall rq w, fst (http_get rq w) = respond rq.

Lemma fetch_in_world_pure tu a b (w : World) :
  fst (fetch_w tu a b w)
  = match respond (req tu a b) with
    | GetRaises e => Raised e
    | GetReturns r =>
        if http_error_status (status_code r)
        then Raised (HTTPError (status_code r))
        else Done (map normalize (energy_values r))
    end.
Proof.
  rewrite fetch_in_world_eq, <- (unchanged_remote (req tu a b) w).
  destruct (http_get (req tu a b) w) as [[e | r] w']; [reflexivity |].
  cbn [fst]. destruct (http_error_status (status_code r)); reflexivity.
Qed.

Lemma per_day_fetch_pure tu days (w1 w2 : World) :
  fst (per_day tu days w1) = fst (per_day tu days w2).
Proof.
  revert w1 w2. induction days as [| d days IH]; intros w1 w2; [reflexivity |].
  cbn [per_day_fetch].
  pose proof (fetch_in_world_pure tu d d w1) as H1.
  pose proof (fetch_in_world_pure tu d d w2) as H2.
  destruct (fetch_w tu d d w1) as [r1 w1'].
  destruct (fetch_w tu d d w2) as [r2 w2'].
  specialize (IH w1' w2').
  destruct (per_day tu days w1') as [rs1 w1''].
  destruct (per_day tu days w2') as [rs2 w2''].
  cbn [fst] in *. congruence.
Qed.

(** The result of the processing of a plan and the warnings it emits do not
    depend on the state it starts in. *)
Lemma fetch_chunks_pure tu plan frames (st1 st2 : state World) :
  fst (chunks tu plan frames st1) = fst (chunks tu plan frames st2)
  /\ exists emitted,
       warnings (snd (chunks tu plan frames st1)) = warnings st1 ++ emitted
       /\ warnings (snd (chunks tu plan frames st2)) = warnings st2 ++ emitted.
Proof.
  revert frames st1 st2.
  induction plan as [| [a b] plan IH]; intros frames st1 st2.
  - cbn. split; [reflexivity |]. exists []. now rewrite !app_nil_r.
  - cbn [fetch_chunks]. unfold bind. rewrite !process_chunk_eq.
    pose proof (fetch_in_world_pure tu a b (world st1)) as H1.
    pose proof (fetch_in_world_pure tu a b (world st2)) as H2.
    destruct (fetch_w tu a b (world st1)) as [r1 w1].
    destruct (fetch_w tu a b (world st2)) as [r2 w2].
    cbn [fst] in H1, H2. rewrite <- H2 in H1. subst r2.
    destruct r1 as [df | e | ].
    + exact (IH _ (mkState w1 (warnings st1)) (mkState w2 (warnings st2))).
    + destruct (is_HTTPError e).
      * cbv zeta.
        rewrite (per_day_fetch_pure tu (date_range a b) w2 w1).
        set (outcomes := fst (per_day tu (date_range a b) w1)).
        set (ws := FailedChunk a b
                   :: skipped_days (date_range a b) outcomes).
        destruct (IH (frames ++ kept_frames outcomes)
                    (mkState (snd (per_day tu (date_range a b) w1))
                       (warnings st1 ++ ws))
                    (mkState (snd (per_day tu (date_range a b) w2))
                       (warnings st2 ++ ws)))
          as [Hr (emitted & He1 & He2)].
        split; [exact Hr |].
        exists (ws ++ emitted).
        cbn [fst snd]. rewrite He1, He2. cbn [warnings].
        rewrite <- !app_assoc. split; reflexivity.
      * cbn. split; [reflexivity |]. exists []. now rewrite !app_nil_r.
    + cbn. split; [reflexivity |]. exists []. now rewrite !app_nil_r.
Qed.

(** C9: against a remote whose answer to a request does not change, the
    result of [fetch_energy_chunked] for a time unit and a range of dates,
    dataset or exception, and the warnings it emits are the same from any
    two states, so the same on a second run after a first one. *)
Theorem fetch_deterministic tu start_date end_date (st1 st2 : state World) :
  fst (fetch_all tu start_date end_date st1)
  = fst (fetch_all tu start_date end_date st2)
  /\ (exists emitted,
        warnings (snd (fetch_all tu start_date end_date st1))
        = warnings st1 ++ emitted
        /\ warnings (snd (fetch_all tu start_date end_date st2))
           = warnings st2 ++ emitted)
  /\ fst (fetch_all tu start_date end_date
            (snd (fetch_all tu start_date end_date st1)))
     = fst (fetch_all tu start_date end_date st1).
Proof.
  assert (Hany : forall s1 s2 : state World,
    fst (fetch_all tu start_date end_date s1)
    = fst (fetch_all tu start_date end_date s2)
    /\ (exists emitted,
          warnings (snd (fetch_all tu start_date end_date s1))
          = warnings s1 ++ emitted
          /\ warnings (snd (fetch_all tu start_date end_date s2))
             = warnings s2 ++ emitted)).
  { intros s1 s2. rewrite !fetch_energy_chunked_plan.
    destruct (fetch_chunks_pure tu (planned_chunks start_date end_date) []
                s1 s2) as [Hr (emitted & He1 & He2)].
    destruct (chunks tu (planned_chunks start_date end_date) [] s1)
      as [r1 s1'].
    destruct (chunks tu (planned_chunks start_date end_date) [] s2)
      as [r2 s2'].
    cbn [fst snd] in *. subst r2.
    destruct r1; cbn [fst snd]; eauto. }
  destruct (Hany st1 st2) as [Hr He].
  split; [exact Hr | split; [exact He |]].
  apply Hany.
Qed.

End Deterministic.

End Claims.

(** * The claims on concrete runs *)

(** C8: for the range 2023-01-01 .. 2023-03-05 the loop plans the three
    chunks 01-01 .. 01-31, 02-01 .. 03-03 and 03-04 .. 03-05, in that order,
    and these are the three requests that a remote receives when it answers
    every one of them. *)
Theorem chunks_of_early_2023 :
  MAX_DAYS = 31
  /\ planned_chunks (ymd2ord 2023 1 1) (ymd2ord 2023 3 5)
     = [(ymd2ord 2023 1 1, ymd2ord 2023 1 31);
        (ymd2ord 2023 2 1, ymd2ord 2023 3 3);
        (ymd2ord 2023 3 4, ymd2ord 2023 3 5)]
  /\ map (fun rq => (startDate rq, endDate rq))
       (snd (world (snd (fetch_energy_chunked
                           (recording (always (ok [sample_150_0915])))
                           "key" "site" "QUARTER_OF_AN_HOUR"
                           (ymd2ord 2023 1 1) (ymd2ord 2023 3 5)
                           (mkState (tt, []) [])))))
     = [(ymd2ord 2023 1 1, ymd2ord 2023 1 31);
        (ymd2ord 2023 2 1, ymd2ord 2023 3 3);
        (ymd2ord 2023 3 4, ymd2ord 2023 3 5)].
Proof. split; [| split]; vm_compute; reflexivity. Qed.

Lemma chunk_partition_witness :
  ymd2ord 2023 1 1 <= ymd2ord 2023 3 5
  /\ days_across (planned_chunks (ymd2ord 2023 1 1) (ymd2ord 2023 3 5))
     = date_range (ymd2ord 2023 1 1) (ymd2ord 2023 3 5).
Proof.
  assert (H : ymd2ord 2023 1 1 <= ymd2ord 2023 3 5)
    by (vm_compute; discriminate).
  split; [exact H |].
  pose proof (chunk_partition (always (ok [])) "key" "site"
                "QUARTER_OF_AN_HOUR" (ymd2ord 2023 1 1) (ymd2ord 2023 3 5)
                (mkState tt []) H) as Hplan.
  cbv zeta in Hplan.
  destruct Hplan as (_ & _ & _ & _ & Hdays & _). exact Hdays.
Defined.

Lemma reversed_range_is_empty_witness :
  ymd2ord 2023 1 1 < ymd2ord 2023 3 5
  /\ fetch_energy_chunked (always (ok [sample_150_0915])) "key" "site"
       "QUARTER_OF_AN_HOUR" (ymd2ord 2023 3 5) (ymd2ord 2023 1 1)
       (mkState tt [])
     = (Done [], mkState tt []).
Proof.
  assert (H : ymd2ord 2023 1 1 < ymd2ord 2023 3 5)
    by (vm_compute; reflexivity).
  split; [exact H |].
  apply (reversed_range_is_empty (always (ok [sample_150_0915])) "key" "site"
           "QUARTER_OF_AN_HOUR" (ymd2ord 2023 3 5) (ymd2ord 2023 1 1)
           (mkState tt []) (mkState (tt, []) []) H).
Defined.

Lemma fetch_loop_terminates_witness :
  (Z.to_nat (ymd2ord 2023 3 5 - ymd2ord 2023 1 1 + 1) <= 64)%nat
  /\ fst (fetch_loop (always (http_status 500)) "key" "site" 64
            "QUARTER_OF_AN_HOUR" (ymd2ord 2023 1 1) (ymd2ord 2023 3 5) []
            (mkState tt []))
     <> OutOfFuel.
Proof.
  assert (H : (Z.to_nat (ymd2ord 2023 3 5 - ymd2ord 2023 1 1 + 1) <= 64)%nat)
    by (vm_compute; lia).
  split; [exact H |].
  apply (fetch_loop_terminates (always (http_status 500)) "key" "site" 64
           "QUARTER_OF_AN_HOUR" (ymd2ord 2023 1 1) (ymd2ord 2023 3 5) []
           (mkState tt []) H).
Defined.

(** C1 at a chunk of two days: an HTTP 500 for the chunk, data for the first
    day and a timeout for the second. *)
Lemma http_failure_absorbed_witness :
  process_chunk scripted "key" "site" "QUARTER_OF_AN_HOUR" 738521 738522 []
    (mkState [http_status 500; ok [sample_150_0915]; GetRaises Timeout] [])
  = (Done ([[normalize sample_150_0915]], 738523),
     mkState [] [FailedChunk 738521 738522; SkippedDay 738522 Timeout]).
Proof.
  apply (http_failure_absorbed scripted "key" "site" 1 "QUARTER_OF_AN_HOUR"
           738521 738522 []
           (mkState [http_status 500; ok [sample_150_0915]; GetRaises Timeout]
              [])
           500 [ok [sample_150_0915]; GetRaises Timeout]).
  - lia.
  - reflexivity.
Defined.

(** C1 as stated fails: a timeout of the chunk fetch is not an [HTTPError],
    so it is not caught, nothing is retried and nothing is warned of. *)
Lemma timeout_of_chunk_propagates :
  fetch_in_world (always (GetRaises Timeout)) "key" "site"
    "QUARTER_OF_AN_HOUR" 738521 738551 tt
  = (Raised Timeout, tt)
  /\ fetch_energy_chunked (always (GetRaises Timeout)) "key" "site"
       "QUARTER_OF_AN_HOUR" 738521 738584 (mkState tt [])
     = (Raised Timeout, mkState tt []).
Proof. split; reflexivity. Qed.

(** C4 at a chunk of two days: an HTTP 500 for the chunk, then data for both
    days. *)
Lemma fallback_equals_per_day_witness :
  exists frames',
    process_chunk scripted "key" "site" "QUARTER_OF_AN_HOUR" 738521 738522 []
      (mkState [http_status 500; ok [sample_null_1440]; ok [sample_150_0915]]
         [])
    = (Done (frames', 738523), mkState [] [FailedChunk 738521 738522])
    /\ pd_concat frames'
       = [normalize sample_null_1440; normalize sample_150_0915].
Proof.
  destruct (fallback_equals_per_day scripted "key" "site"
              "QUARTER_OF_AN_HOUR" 738521 738522 []
              (mkState
                 [http_status 500; ok [sample_null_1440]; ok [sample_150_0915]]
                 [])
              500 [ok [sample_null_1440]; ok [sample_150_0915]])
    as (frames' & Hrun & Hrows & _).
  - reflexivity.
  - repeat constructor; eexists; reflexivity.
  - exists frames'. split; [exact Hrun | exact Hrows].
Defined.

(** C4 as stated fails: the chunk fetch fails with a connection error, every
    day of the chunk would succeed, and the turn of the loop raises instead
    of fetching the days. *)
Lemma connection_error_skips_fallback :
  fetch_in_world scripted "key" "site" "QUARTER_OF_AN_HOUR" 738521 738522
    [GetRaises ConnectionError; ok [sample_null_1440]; ok [sample_150_0915]]
  = (Raised ConnectionError, [ok [sample_null_1440]; ok [sample_150_0915]])
  /\ fst (per_day_fetch scripted "key" "site" "QUARTER_OF_AN_HOUR"
            (date_range 738521 738522)
            [ok [sample_null_1440]; ok [sample_150_0915]])
     = [Done [normalize sample_null_1440]; Done [normalize sample_150_0915]]
  /\ process_chunk scripted "key" "site" "QUARTER_OF_AN_HOUR" 738521 738522 []
       (mkState
          [GetRaises ConnectionError; ok [sample_null_1440];
           ok [sample_150_0915]] [])
     = (Raised ConnectionError,
        mkState [ok [sample_null_1440]; ok [sample_150_0915]] []).
Proof. split; [| split]; reflexivity. Qed.

(** C5 at a chunk of three days: an HTTP 503 for the chunk, data for the
    first day, a timeout for the second, data for the third. *)
Lemma one_day_lost_rest_kept_witness :
  process_chunk scripted "key" "site" "QUARTER_OF_AN_HOUR" 738521 738523 []
    (mkState [http_status 503; ok [sample_null_1440]; GetRaises Timeout;
              ok [sample_150_0915]] [])
  = (Done ([[normalize sample_null_1440]; [normalize sample_150_0915]],
           738524),
     mkState [] [FailedChunk 738521 738523; SkippedDay 738522 Timeout]).
Proof.
  apply (one_day_lost_rest_kept scripted "key" "site" 1 "QUARTER_OF_AN_HOUR"
           738521 738523 []
           (mkState [http_status 503; ok [sample_null_1440]; GetRaises Timeout;
                     ok [sample_150_0915]] [])
           503 [ok [sample_null_1440]; GetRaises Timeout; ok [sample_150_0915]]
           [738521] 738522 [738523]
           [[normalize sample_null_1440]] Timeout
           [[normalize sample_150_0915]]).
  - lia.
  - reflexivity.
  - reflexivity.
  - reflexivity.
  - reflexivity.
  - repeat constructor; discriminate.
  - discriminate.
Defined.

(** C5 as stated fails: in a chunk of one day, the chunk fails with an HTTP
    500 and its only day fails again; no other day fails, and the dataset is
    empty.  It fails also when the chunk fails with a timeout: the days that
    would succeed are never fetched. *)
Lemma lone_day_lost_leaves_nothing :
  fetch_energy_chunked (always (http_status 500)) "key" "site"
    "QUARTER_OF_AN_HOUR" 738521 738521 (mkState tt [])
  = (Done [],
     mkState tt [FailedChunk 738521 738521;
                 SkippedDay 738521 (HTTPError 500)])
  /\ fetch_energy_chunked scripted "key" "site" "QUARTER_OF_AN_HOUR"
       738521 738523
       (mkState [GetRaises Timeout; ok [sample_null_1440]; GetRaises Timeout;
                 ok [sample_150_0915]] [])
     = (Raised Timeout,
        mkState [ok [sample_null_1440]; GetRaises Timeout;
                 ok [sample_150_0915]] []).
Proof. split; reflexivity. Qed.

(** C6 over forty days, two chunks: every request is answered with an HTTP
    500. *)
Lemma total_failure_witness :
  exists dataset emitted w',
    fetch_energy_chunked (always (http_status 500)) "key" "site"
      "QUARTER_OF_AN_HOUR" 738521 738560 (mkState tt [])
    = (Done dataset, mkState w' emitted)
    /\ List.length dataset = 0%nat
    /\ List.length emitted = 42%nat.
Proof.
  destruct (total_failure (always (http_status 500)) "key" "site"
              "QUARTER_OF_AN_HOUR" 738521 738560 (mkState tt []))
    as (dataset & emitted & w' & Hrun & _ & Hlen & Hcount).
  - intros c w _. exists 500, w. reflexivity.
  - intros d w _. exists (HTTPError 500). reflexivity.
  - exists dataset, emitted, w'.
    split; [exact Hrun | split; [exact Hlen | exact Hcount]].
Defined.

(** C6 as stated fails: when every fetch fails with a timeout, the first
    chunk fetch raises out of [fetch_energy_chunked]; there is no dataset and
    no warning, where the claim counts one chunk and two days. *)
Lemma total_timeout_raises :
  fetch_energy_chunked (always (GetRaises Timeout)) "key" "site"
    "QUARTER_OF_AN_HOUR" 738521 738522 (mkState tt [])
  = (Raised Timeout, mkState tt [])
  /\ Nat.add (List.length (planned_chunks 738521 738522))
       (List.length (days_across (planned_chunks 738521 738522)))
     = 3%nat.
Proof. split; reflexivity. Qed.

(** C9 on a remote that keeps a log of its requests: its world changes with
    every request, its answers do not. *)
Lemma fetch_deterministic_witness :
  fst (fetch_energy_chunked (recording (always (ok [sample_150_0915])))
         "key" "site" "QUARTER_OF_AN_HOUR" 738521 738584
         (mkState (tt, []) []))
  = fst (fetch_energy_chunked (recording (always (ok [sample_150_0915])))
           "key" "site" "QUARTER_OF_AN_HOUR" 738521 738584
           (mkState (tt, [energy_request "key" "site" "DAY" 1 2])
              [FailedChunk 1 2])).
Proof.
  exact (proj1 (fetch_deterministic
                  (recording (always (ok [sample_150_0915])))
                  "key" "site" (fun _ => ok [sample_150_0915])
                  (fun rq w => eq_refl)
                  "QUARTER_OF_AN_HOUR" 738521 738584
                  (mkState (tt, []) [])
                  (mkState (tt, [energy_request "key" "site" "DAY" 1 2])
                     [FailedChunk 1 2]))).
Defined.

(** * Beyond the claims: what a run sends, says and returns *)

Lemma skipped_days_length (days : list pydate)
    (outcomes : list (result DataFrame)) :
  (List.length (skipped_days days outcomes) <= List.length days)%nat.
Proof.
  revert outcomes. induction days as [| d days IH]; intros [| o rest];
    cbn [skipped_days List.length]; try lia.
  specialize (IH rest). destruct o; cbn [List.length]; lia.
Qed.

Lemma skipped_days_in (days : list pydate)
    (outcomes : list (result DataFrame)) :
  Forall (fun msg => exists d e, msg = SkippedDay d e /\ In d days)
    (skipped_days days outcomes).
Proof.
  revert outcomes. induction days as [| d days IH]; intros [| o rest];
    cbn [skipped_days]; try constructor.
  assert (Hrest : Forall (fun msg => exists d0 e, msg = SkippedDay d0 e
                                       /\ In d0 (d :: days))
                    (skipped_days days rest)).
  { eapply Forall_impl; [| exact (IH rest)].
    intros msg (d0 & e & -> & Hin). exists d0, e. split; [easy | now right]. }
  destruct o; try exact Hrest.
  constructor; [| exact Hrest].
  exists d, e. split; [reflexivity | now left].
Qed.

Section Runs.

Context {World : Type}.
Variable http_get : request -> World -> http_result * World.
Variables API_KEY SITE_ID : string.

Local Abbreviation fetch_w := (fetch_in_world http_get API_KEY SITE_ID).
Local Abbreviation per_day := (per_day_fetch http_get API_KEY SITE_ID).
Local Abbreviation chunk := (process_chunk http_get API_KEY SITE_ID).
Local Abbreviation chunks := (fetch_chunks http_get API_KEY SITE_ID).
Local Abbreviation fetch_all := (fetch_energy_chunked http_get API_KEY SITE_ID).
Local Abbreviation req := (energy_request API_KEY SITE_ID).
Local Abbreviation rec := (recording http_get).

Lemma fetch_energy_chunked_state tu start_date end_date (st : state World) :
  snd (fetch_all tu start_date end_date st)
  = snd (chunks tu (planned_chunks start_date end_date) [] st).
Proof.
  rewrite fetch_energy_chunked_plan.
  destruct (chunks tu (planned_chunks start_date end_date) [] st)
    as [[fr | e | ] st']; reflexivity.
Qed.

Lemma planned_chunks_bounds (start_date end_date : pydate) :
  Forall (fun c => start_date <= fst c /\ fst c <= snd c
                   /\ snd c <= end_date
                   /\ snd c - fst c + 1 <= MAX_DAYS)
    (planned_chunks start_date end_date).
Proof.
  destruct (Z.le_gt_cases start_date end_date) as [Hle | Hgt].
  - exact (tiles_bounds _ _ _
             (planned_chunks_tiles start_date end_date ltac:(lia))).
  - unfold planned_chunks. rewrite chunk_plan_empty by lia. constructor.
Qed.

(** *** The warnings *)

Lemma process_chunk_warnings tu a b frames (st : state World) :
  exists emitted,
    warnings (snd (chunk tu a b frames st)) = warnings st ++ emitted
    /\ (List.length emitted <= 1 + List.length (date_range a b))%nat
    /\ (a <= b -> Forall (warning_in_range a b) emitted).
Proof.
  rewrite process_chunk_eq.
  destruct (fetch_w tu a b (world st)) as [[df | e | ] w].
  - exists []. cbn. rewrite app_nil_r. repeat split; [lia | constructor].
  - destruct (is_HTTPError e).
    + eexists (_ :: _). cbn [snd warnings]. split; [reflexivity |].
      split.
      * cbn [List.length].
        pose proof (skipped_days_length (date_range a b)
                      (fst (per_day tu (date_range a b) w))). lia.
      * intros Hab. constructor; [cbn; lia |].
        eapply Forall_impl; [| apply skipped_days_in].
        intros msg (d & e' & -> & Hin). cbn.
        now apply In_date_range in Hin.
    + exists []. cbn. rewrite app_nil_r. repeat split; [lia | constructor].
  - exists []. cbn. rewrite app_nil_r. repeat split; [lia | constructor].
Qed.

Lemma warning_in_range_wider (a b lo hi : pydate) (msg : warning) :
  lo <= a -> b <= hi -> warning_in_range a b msg ->
  warning_in_range lo hi msg.
Proof. destruct msg; cbn; lia. Qed.

Lemma fetch_chunks_warnings tu (lo hi : pydate) plan frames
    (st : state World) :
  Forall (fun c => lo <= fst c /\ fst c <= snd c /\ snd c <= hi
                   /\ snd c - fst c + 1 <= MAX_DAYS) plan ->
  exists emitted,
    warnings (snd (chunks tu plan frames st)) = warnings st ++ emitted
    /\ (List.length emitted
        <= List.length plan + List.length (days_across plan))%nat
    /\ Forall (warning_in_range lo hi) emitted.
Proof.
  intros Hplan. revert frames st.
  induction Hplan as [| [a b] plan Hc Hplan IH]; intros frames st.
  - exists []. cbn. rewrite app_nil_r. repeat split; [lia | constructor].
  - cbn [fst snd] in Hc. cbn [fetch_chunks]. unfold bind.
    destruct (process_chunk_warnings tu a b frames st)
      as (e1 & Hw1 & Hl1 & Hr1).
    assert (Hr1' : Forall (warning_in_range lo hi) e1).
    { eapply Forall_impl; [| apply Hr1; lia].
      intros msg. apply warning_in_range_wider; lia. }
    assert (Hlen : (List.length e1
                    <= List.length ((a, b) :: plan)
                       + List.length (days_across ((a, b) :: plan)))%nat).
    { cbn [List.length days_across flat_map]. rewrite length_app.
      unfold chunk_days. cbn [fst snd]. lia. }
    destruct (chunk tu a b frames st) as [[p | e | ] st1];
      cbn [snd] in Hw1 |- *; try solve [exists e1; auto].
    destruct (IH (fst p) st1) as (e2 & Hw2 & Hl2 & Hr2).
    exists (e1 ++ e2). rewrite Hw2, Hw1, app_assoc.
    split; [reflexivity | split].
    + rewrite length_app. cbn [List.length days_across flat_map].
      fold (days_across plan). rewrite length_app.
      unfold chunk_days. cbn [fst snd]. lia.
    + apply Forall_app. auto.
Qed.

(** X4: whatever the remote does, and whether the run returns or raises,
    [fetch_energy_chunked] only adds warnings to those already shown; each
    one is about a chunk or a day inside the range asked for, and there are
    at most as many as chunks plus days of the range. *)
Theorem warnings_within_range tu start_date end_date (st : state World) :
  exists emitted,
    warnings (snd (fetch_all tu start_date end_date st))
    = warnings st ++ emitted
    /\ (List.length emitted
        <= List.length (planned_chunks start_date end_date)
           + List.length (days_across (planned_chunks start_date end_date)))%nat
    /\ Forall (warning_in_range start_date end_date) emitted.
Proof.
  rewrite fetch_energy_chunked_state.
  apply fetch_chunks_warnings, planned_chunks_bounds.
Qed.

(** *** The requests *)

Lemma recording_fetch tu a b (wl : World * list request) :
  fetch_in_world rec API_KEY SITE_ID tu a b wl
  = (fst (fetch_w tu a b (fst wl)),
     (snd (fetch_w tu a b (fst wl)), snd wl ++ [req tu a b])).
Proof.
  rewrite !fetch_in_world_eq. unfold recording.
  destruct (http_get (req tu a b) (fst wl)) as [[e | r] w']; [reflexivity |].
  destruct (http_error_status (status_code r)); reflexivity.
Qed.

Lemma recording_fetch_each tu ranges (wl : World * list request) :
  fetch_each rec API_KEY SITE_ID tu ranges wl
  = (fst (fetch_each http_get API_KEY SITE_ID tu ranges (fst wl)),
     (snd (fetch_each http_get API_KEY SITE_ID tu ranges (fst wl)),
      snd wl ++ map (fun c => req tu (fst c) (snd c)) ranges)).
Proof.
  revert wl. induction ranges as [| [a b] ranges IH]; intros wl.
  - cbn. rewrite app_nil_r. now destruct wl.
  - cbn [fetch_each]. rewrite recording_fetch.
    destruct (fetch_w tu a b (fst wl)) as [r w1]. cbn [fst snd].
    rewrite IH. cbn [fst snd].
    destruct (fetch_each http_get API_KEY SITE_ID tu ranges w1) as [rs w2].
    cbn [fst snd map]. rewrite <- app_assoc. reflexivity.
Qed.

Lemma recording_per_day tu days (wl : World * list request) :
  per_day_fetch rec API_KEY SITE_ID tu days wl
  = (fst (per_day tu days (fst wl)),
     (snd (per_day tu days (fst wl)),
      snd wl ++ map (fun d => req tu d d) days)).
Proof.
  revert wl. induction days as [| d days IH]; intros wl.
  - cbn. rewrite app_nil_r. now destruct wl.
  - cbn [per_day_fetch]. rewrite recording_fetch.
    destruct (fetch_w tu d d (fst wl)) as [r w1]. cbn [fst snd].
    rewrite IH. cbn [fst snd].
    destruct (per_day tu days w1) as [rs w2].
    cbn [fst snd map]. rewrite <- app_assoc. reflexivity.
Qed.

Lemma recording_process_chunk tu a b frames
    (st : state (World * list request)) :
  a <= b -> b - a + 1 <= MAX_DAYS ->
  exists sent,
    snd (world (snd (process_chunk rec API_KEY SITE_ID tu a b frames st)))
    = snd (world st) ++ sent
    /\ (1 <= List.length sent <= 1 + List.length (date_range a b))%nat
    /\ Forall (request_in_range API_KEY SITE_ID tu a b) sent.
Proof.
  intros Hab Hspan.
  assert (Hchunk : request_in_range API_KEY SITE_ID tu a b (req tu a b))
    by (unfold request_in_range; cbn; repeat split; lia).
  rewrite process_chunk_eq, recording_fetch.
  destruct (fetch_w tu a b (fst (world st))) as [[df | e | ] w];
    cbn [fst snd world].
  - exists [req tu a b]. cbn [List.length]. repeat split; try lia; auto.
  - destruct (is_HTTPError e); cbn [fst snd world].
    + rewrite recording_per_day. cbn [fst snd].
      exists (req tu a b :: map (fun d => req tu d d) (date_range a b)).
      rewrite <- app_assoc. split; [reflexivity |].
      cbn [List.length]. rewrite length_map. split; [lia |].
      constructor; [exact Hchunk |].
      apply Forall_map, Forall_forall. intros d Hd.
      apply In_date_range in Hd.
      unfold request_in_range, MAX_DAYS. cbn. repeat split; lia.
    + exists [req tu a b]. cbn [List.length]. repeat split; try lia; auto.
  - exists [req tu a b]. cbn [List.length]. repeat split; try lia; auto.
Qed.

Lemma request_in_range_wider tu (a b lo hi : pydate) (rq : request) :
  lo <= a -> b <= hi ->
  request_in_range API_KEY SITE_ID tu a b rq ->
  request_in_range API_KEY SITE_ID tu lo hi rq.
Proof. unfold request_in_range. intros Hlo Hhi H. repeat split; try tauto; lia. Qed.

Lemma recording_fetch_chunks tu (lo hi : pydate) plan frames
    (st : state (World * list request)) :
  Forall (fun c => lo <= fst c /\ fst c <= snd c /\ snd c <= hi
                   /\ snd c - fst c + 1 <= MAX_DAYS) plan ->
  exists sent,
    snd (world (snd (fetch_chunks rec API_KEY SITE_ID tu plan frames st)))
    = snd (world st) ++ sent
    /\ (List.length sent
        <= List.length plan + List.length (days_across plan))%nat
    /\ Forall (request_in_range API_KEY SITE_ID tu lo hi) sent.
Proof.
  intros Hplan. revert frames st.
  induction Hplan as [| [a b] plan Hc Hplan IH]; intros frames st.
  - exists []. cbn. rewrite app_nil_r. repeat split; [lia | constructor].
  - cbn [fst snd] in Hc. cbn [fetch_chunks]. unfold bind.
    destruct (recording_process_chunk tu a b frames st)
      as (s1 & Hw1 & Hl1 & Hr1); try lia.
    assert (Hr1' : Forall (request_in_range API_KEY SITE_ID tu lo hi) s1).
    { eapply Forall_impl; [| exact Hr1].
      intros rq. apply request_in_range_wider; lia. }
    assert (Hlen : (List.length s1
                    <= List.length ((a, b) :: plan)
                       + List.length (days_across ((a, b) :: plan)))%nat).
    { cbn [List.length days_across flat_map]. rewrite length_app.
      unfold chunk_days. cbn [fst snd]. lia. }
    destruct (process_chunk rec API_KEY SITE_ID tu a b frames st)
      as [[p | e | ] st1]; cbn [snd] in Hw1 |- *;
      try solve [exists s1; auto].
    destruct (IH (fst p) st1) as (s2 & Hw2 & Hl2 & Hr2).
    exists (s1 ++ s2). rewrite Hw2, Hw1, app_assoc.
    split; [reflexivity | split].
    + rewrite length_app. cbn [List.length days_across flat_map].
      fold (days_across plan). rewrite length_app.
      unfold chunk_days. cbn [fst snd]. lia.
    + apply Forall_app. auto.
Qed.

(** X1: whatever the remote answers, every request that a run of
    [fetch_energy_chunked] sends is a request to the energy endpoint of the
    site, with the key and the time unit given, for days inside the range
    asked for and for at most 31 of them; a run sends at most one request
    per chunk and one per day of the range. *)
Theorem requests_within_range tu start_date end_date
    (st : state (World * list request)) :
  exists sent,
    snd (world (snd (fetch_energy_chunked rec API_KEY SITE_ID tu
                       start_date end_date st)))
    = snd (world st) ++ sent
    /\ (List.length sent
        <= List.length (planned_chunks start_date end_date)
           + List.length (days_across (planned_chunks start_date end_date)))%nat
    /\ Forall (request_in_range API_KEY SITE_ID tu start_date end_date) sent.
Proof.
  rewrite fetch_energy_chunked_plan.
  destruct (recording_fetch_chunks tu start_date end_date
              (planned_chunks start_date end_date) [] st
              (planned_chunks_bounds start_date end_date))
    as (sent & Hlog & Hlen & Hall).
  exists sent.
  destruct (fetch_chunks rec API_KEY SITE_ID tu
              (planned_chunks start_date end_date) [] st)
    as [[fr | e | ] st']; cbn [snd] in *; auto.
Qed.

(** *** The run where every chunk is fetched *)

Lemma fetch_chunks_all_succeed tu plan frames (st : state World) :
  (forall c w, In c plan -> succeeded (fst (fetch_w tu (fst c) (snd c) w))) ->
  chunks tu plan frames st
  = (Done (frames
           ++ kept_frames
                (fst (fetch_each http_get API_KEY SITE_ID tu plan (world st)))),
     mkState (snd (fetch_each http_get API_KEY SITE_ID tu plan (world st)))
       (warnings st)).
Proof.
  revert frames st. induction plan as [| [a b] plan IH]; intros frames st Hok.
  - cbn. rewrite app_nil_r. now destruct st.
  - cbn [fetch_chunks fetch_each]. unfold bind. rewrite process_chunk_eq.
    destruct (Hok (a, b) (world st) (or_introl eq_refl)) as [df Hdf].
    cbn [fst snd] in Hdf.
    destruct (fetch_w tu a b (world st)) as [r w1]. cbn [fst] in Hdf. subst r.
    rewrite IH by (intros c w Hc; apply Hok; now right).
    cbn [fst snd world warnings].
    destruct (fetch_each http_get API_KEY SITE_ID tu plan w1) as [rs w2].
    cbn [fst snd kept_frames].
    rewrite (append_nonempty_app frames df), <- app_assoc. reflexivity.
Qed.

Lemma fetch_each_all tu ranges (w : World) (P : result DataFrame -> Prop) :
  (forall c w', In c ranges -> P (fst (fetch_w tu (fst c) (snd c) w'))) ->
  Forall P (fst (fetch_each http_get API_KEY SITE_ID tu ranges w))
  /\ List.length (fst (fetch_each http_get API_KEY SITE_ID tu ranges w))
     = List.length ranges.
Proof.
  revert w. induction ranges as [| [a b] ranges IH]; intros w HP.
  - split; [constructor | reflexivity].
  - cbn [fetch_each].
    pose proof (HP (a, b) w (or_introl eq_refl)) as Hc. cbn [fst snd] in Hc.
    destruct (fetch_w tu a b w) as [r w1].
    destruct (IH w1 (fun c w' Hin => HP c w' (or_intror Hin))) as [Hall Hlen].
    destruct (fetch_each http_get API_KEY SITE_ID tu ranges w1) as [rs w2].
    cbn [fst List.length] in *. split; [constructor; assumption | now rewrite Hlen].
Qed.

End Runs.

(** X2: when the fetch of every planned chunk succeeds, [fetch_energy_chunked]
    fetches each chunk once, in the order of the plan, fetches no day on its
    own and warns of nothing; the dataset is the rows of the chunks, one
    chunk after the other. *)
Theorem all_chunks_fetched {World : Type}
    (http_get : request -> World -> http_result * World)
    (API_KEY SITE_ID tu : string) (start_date end_date : pydate)
    (st : state World) :
  (forall c w, In c (planned_chunks start_date end_date) ->
     succeeded (fst (fetch_in_world http_get API_KEY SITE_ID tu
                       (fst c) (snd c) w))) ->
  let outcomes :=
    fetch_each http_get API_KEY SITE_ID tu
      (planned_chunks start_date end_date) (world st) in
  fetch_energy_chunked http_get API_KEY SITE_ID tu start_date end_date st
  = (Done (flat_map rows_of (fst outcomes)),
     mkState (snd outcomes) (warnings st))
  /\ Forall succeeded (fst outcomes)
  /\ List.length (fst outcomes)
     = List.length (planned_chunks start_date end_date)
  /\ (forall log,
        snd (world (snd (fetch_energy_chunked (recording http_get)
                           API_KEY SITE_ID tu start_date end_date
                           (mkState (world st, log) (warnings st)))))
        = log ++ map (fun c => energy_request API_KEY SITE_ID tu
                                 (fst c) (snd c))
                   (planned_chunks start_date end_date)).
Proof.
  intros Hok outcomes. subst outcomes.
  destruct (fetch_each_all http_get API_KEY SITE_ID tu
              (planned_chunks start_date end_date) (world st)
              succeeded Hok) as [Hall Hlen].
  split; [| split; [exact Hall | split; [exact Hlen |]]].
  - rewrite fetch_energy_chunked_plan, fetch_chunks_all_succeed by exact Hok.
    cbn [app]. rewrite assemble_eq, pd_concat_kept_frames. reflexivity.
  - intros log.
    rewrite fetch_energy_chunked_plan, fetch_chunks_all_succeed.
    + cbn [snd world]. rewrite recording_fetch_each. reflexivity.
    + intros c w Hc. rewrite recording_fetch. cbn [fst]. now apply Hok.
Qed.

(** *** The rows *)

Section Rows.

Context {World : Type}.
Variable http_get : request -> World -> http_result * World.
Variables API_KEY SITE_ID : string.

Local Abbreviation fetch_w := (fetch_in_world http_get API_KEY SITE_ID).
Local Abbreviation per_day := (per_day_fetch http_get API_KEY SITE_ID).
Local Abbreviation chunk := (process_chunk http_get API_KEY SITE_ID).
Local Abbreviation chunks := (fetch_chunks http_get API_KEY SITE_ID).
Local Abbreviation fetch_all := (fetch_energy_chunked http_get API_KEY SITE_ID).

(** The frames that the loop accumulates hold rows, all of them
    normalized. *)
Local Abbreviation sound_frames :=
  (Forall (fun df : DataFrame => df <> [] /\ Forall normalized df)).

Lemma fetch_in_world_normalized tu a b (w : World) :
  Forall normalized (rows_of (fst (fetch_w tu a b w))).
Proof.
  rewrite fetch_in_world_eq.
  destruct (http_get _ w) as [[e | r] w']; [constructor |].
  destruct (http_error_status (status_code r)); [constructor |].
  cbn. apply Forall_map, Forall_forall. intros s _. now exists s.
Qed.

Lemma append_nonempty_sound (frames : list DataFrame) (df : DataFrame) :
  sound_frames frames -> Forall normalized df ->
  sound_frames (append_nonempty frames df).
Proof.
  intros Hf Hdf. unfold append_nonempty.
  destruct df as [| r df]; [exact Hf |].
  apply Forall_app. split; [exact Hf |].
  constructor; [| constructor]. split; [discriminate | exact Hdf].
Qed.

Lemma kept_frames_sound tu days (w : World) :
  sound_frames (kept_frames (fst (per_day tu days w))).
Proof.
  revert w. induction days as [| d days IH]; intros w; [constructor |].
  cbn [per_day_fetch].
  pose proof (fetch_in_world_normalized tu d d w) as Hd.
  destruct (fetch_w tu d d w) as [r w1].
  specialize (IH w1). destruct (per_day tu days w1) as [rs w2].
  cbn [fst kept_frames] in *.
  destruct r as [df | e | ]; try exact IH.
  apply Forall_app. split; [| exact IH].
  apply append_nonempty_sound; [constructor | exact Hd].
Qed.

Lemma process_chunk_sound tu a b frames (st st' : state World) p :
  sound_frames frames ->
  chunk tu a b frames st = (Done p, st') ->
  sound_frames (fst p).
Proof.
  intros Hf. rewrite process_chunk_eq.
  pose proof (fetch_in_world_normalized tu a b (world st)) as Hc.
  destruct (fetch_w tu a b (world st)) as [[df | e | ] w];
    [| destruct (is_HTTPError e) |]; intros H; inversion H; subst;
    cbn [fst].
  - apply append_nonempty_sound; assumption.
  - apply Forall_app. split; [exact Hf | apply kept_frames_sound].
Qed.

Lemma fetch_chunks_sound tu plan frames (st st' : state World) final :
  sound_frames frames ->
  chunks tu plan frames st = (Done final, st') ->
  sound_frames final.
Proof.
  revert frames st. induction plan as [| [a b] plan IH]; intros frames st Hf.
  - cbn. intros H. inversion H; subst. exact Hf.
  - cbn [fetch_chunks]. unfold bind.
    destruct (chunk tu a b frames st) as [[p | e | ] st1] eqn:Hp;
      try discriminate.
    apply IH. exact (process_chunk_sound _ _ _ _ _ _ _ Hf Hp).
Qed.


End Rows.

Lemma Qfloor_between (q : Q) (z : Z) :
  (inject_Z z <= q)%Q -> (q < inject_Z (z + 1))%Q -> Qfloor q = z.
Proof.
  intros Hlo Hhi.
  assert (H1 := Qfloor_le q). assert (H2 := Qlt_floor q).
  assert (Qfloor q < z + 1)
    by (rewrite Zlt_Qlt; eapply Qle_lt_trans; eassumption).
  assert (z < Qfloor q + 1)
    by (rewrite Zlt_Qlt; eapply Qle_lt_trans; eassumption).
  lia.
Qed.

Lemma round_half_even_hour (h m : Z) :
  0 <= m <= 59 ->
  round_half_even (inject_Z h + inject_Z m / 60)
  = if m <? 30 then h
    else if 30 <? m then h + 1
    else if Z.even h then h else h + 1.
Proof.
  intros Hm.
  assert (Hm0 : (0 <= inject_Z m)%Q)
    by (change 0%Q with (inject_Z 0); rewrite <- Zle_Qle; lia).
  assert (Hm60 : (inject_Z m < 60)%Q)
    by (change 60%Q with (inject_Z 60); rewrite <- Zlt_Qlt; lia).
  unfold Qdiv. change (/ 60)%Q with (1 # 60)%Q.
  assert (Hf : Qfloor (inject_Z h + inject_Z m * (1 # 60)) = h).
  { apply Qfloor_between.
    - lra.
    - rewrite inject_Z_plus. change (inject_Z 1) with 1%Q. lra. }
  unfold round_half_even. rewrite Hf.
  destruct (Z.ltb_spec m 30) as [Hlt | Hge].
  - assert (H : (inject_Z m < 30)%Q)
      by (change 30%Q with (inject_Z 30); rewrite <- Zlt_Qlt; lia).
    replace (Qcompare _ _) with Lt; [reflexivity |].
    symmetry. apply (proj1 (Qlt_alt _ _)). lra.
  - destruct (Z.ltb_spec 30 m) as [Hgt | Hle].
    + assert (H : (30 < inject_Z m)%Q)
        by (change 30%Q with (inject_Z 30); rewrite <- Zlt_Qlt; lia).
      replace (Qcompare _ _) with Gt; [reflexivity |].
      symmetry. apply (proj1 (Qgt_alt _ _)). lra.
    + assert (m = 30) as -> by lia.
      replace (Qcompare _ _) with Eq; [reflexivity |].
      symmetry. apply (proj1 (Qeq_alt _ _)).
      change (inject_Z 30) with 30%Q. lra.
Qed.

(** X5: for a timestamp with minute 0 to 59, the rounded hour is the hour
    before minute 30 and the next hour after it; at minute 30 it is the even
    one of the two, so 14:30 gives 14 and 13:30 gives 14.  For an hour of
    the day, 0 to 23, the rounded hour lies in 0 .. 24, and it is 24, past
    the hours of a day, exactly from 23:30 on. *)
Theorem rounded_hour_of_day (s : raw_sample) :
  let h := ts_hour (raw_date s) in
  let m := ts_minute (raw_date s) in
  0 <= m <= 59 ->
  hour_rounded (normalize s)
  = (if m <? 30 then h
     else if 30 <? m then h + 1
     else if Z.even h then h else h + 1)
  /\ (0 <= h <= 23 ->
      0 <= hour_rounded (normalize s) <= 24
      /\ (hour_rounded (normalize s) = 24 <-> h = 23 /\ 30 <= m)).
Proof.
  intros h m Hm.
  assert (Hr : hour_rounded (normalize s)
               = (if m <? 30 then h
                  else if 30 <? m then h + 1
                  else if Z.even h then h else h + 1))
    by (apply round_half_even_hour; exact Hm).
  split; [exact Hr |].
  intros Hh. rewrite Hr.
  destruct (Z.ltb_spec m 30); [lia |].
  destruct (Z.ltb_spec 30 m); [lia |].
  destruct (Z.even h) eqn:He; [| lia].
  assert (h <> 23) by (intros ->; discriminate).
  lia.
Qed.

Lemma rounded_hour_of_day_witness :
  hour_rounded
    (normalize {| raw_date := mkTimestamp 2023 6 30 23 30 0;
                  raw_value := Some (12 # 1) |})
  = 24.
Proof.
  assert (Hm : 0 <= 30 <= 59) by lia.
  destruct (rounded_hour_of_day
              {| raw_date := mkTimestamp 2023 6 30 23 30 0;
                 raw_value := Some (12 # 1) |} Hm) as [_ H].
  apply H; cbn; lia.
Defined.

Lemma all_chunks_fetched_witness :
  fetch_energy_chunked (always (ok [sample_150_0915])) "key" "site"
    "QUARTER_OF_AN_HOUR" 738521 738584 (mkState tt [])
  = (Done [normalize sample_150_0915; normalize sample_150_0915;
           normalize sample_150_0915],
     mkState tt []).
Proof.
  refine (proj1 (all_chunks_fetched (always (ok [sample_150_0915])) "key"
                   "site" "QUARTER_OF_AN_HOUR" 738521 738584 (mkState tt [])
                   _)).
  intros c w _. eexists. reflexivity.
Defined.

(** * Beyond the claims: the best-effort endpoints *)

Section EndpointFacts.

Context {World : Type}.
Variable url_get : string -> World -> url_result * World.
Variables API_KEY SITE_ID : string.

(** X6: [fetch_site_overview] raises nothing.  Unless the endpoint answers
    with a status that is no error and a JSON object, it returns the empty
    dict with one warning, and then the metrics of the overview are not
    shown; otherwise it warns of nothing and returns the member "overview" of
    the object, or the empty dict when there is none.  It sends one
    request. *)
Theorem site_overview_best_effort (w : World) :
  let url := (BASE_URL SITE_ID ++ "/overview?api_key=" ++ API_KEY)%string in
  let '(overview, shown, w') := fetch_site_overview url_get API_KEY SITE_ID w in
  w' = snd (url_get url w)
  /\ overview_shown url_get API_KEY SITE_ID w = (truthy overview, shown, w')
  /\ ((exists members,
         usable_answer (fst (url_get url w)) members
         /\ shown = []
         /\ overview = match dict_lookup "overview" members with
                       | Some v => v
                       | None => JObj []
                       end)
      \/ ((forall members, ~ usable_answer (fst (url_get url w)) members)
          /\ (exists e, shown = [FailedSiteOverview e])
          /\ overview = JObj []
          /\ truthy overview = false)).
Proof.
  intros url. unfold overview_shown, fetch_site_overview, usable_answer.
  fold url.
  destruct (url_get url w) as [[e | resp] w1] eqn:Hget; cbn [fst snd].
  - repeat split. right.
    repeat split; eauto. intros members (resp & H & _). discriminate.
  - destruct (http_error_status (js_status_code resp)) eqn:Hstatus.
    + repeat split. right. repeat split; eauto.
      intros members (resp' & H & Hs & _). inversion H; subst. congruence.
    + destruct (js_body resp) as [body |] eqn:Hbody.
      * destruct body; cbn [py_get];
          try (repeat split; right; repeat split; eauto;
               intros members (resp' & H & _ & Hb); inversion H; subst;
               congruence).
        repeat split. left. exists members.
        split; [| split; reflexivity]. exists resp. auto.
      * repeat split. right. repeat split; eauto.
        intros members (resp' & H & _ & Hb). inversion H; subst. congruence.
Qed.

(** X7: the lookup of the CO2 saved, after [fetch_env_benefits], gives 0
    whenever the fetch failed, with the one warning of the failure, and gives
    the member "co2" of "gasEmissionSaved" of the benefits, or 0 where a
    member is missing, after a fetch that warned of nothing.  It raises only
    [AttributeError], and only after a fetch that warned of nothing: a
    default stands for a member that is missing, not for one that is there
    and is no dict, such as a null. *)
Theorem co2_after_env_benefits (w : World) :
  let url := (BASE_URL SITE_ID ++ "/envBenefits?api_key=" ++ API_KEY)%string in
  let '(co2, shown, w') := co2_saved url_get API_KEY SITE_ID w in
  w' = snd (url_get url w)
  /\ (shown = []
      \/ ((forall members, ~ usable_answer (fst (url_get url w)) members)
          /\ (exists e, shown = [FailedEnvBenefits e])
          /\ co2 = Returned (JNum 0)))
  /\ (forall e, co2 = Threw e -> e = AttributeError /\ shown = [])
  /\ (forall members,
        usable_answer (fst (url_get url w)) members ->
        shown = []
        /\ co2 = match dict_lookup "envBenefits" members with
                 | None => Returned (JNum 0)
                 | Some (JObj benefits) =>
                     match dict_lookup "gasEmissionSaved" benefits with
                     | None => Returned (JNum 0)
                     | Some (JObj saved) =>
                         Returned (match dict_lookup "co2" saved with
                                   | Some v => v
                                   | None => JNum 0
                                   end)
                     | Some _ => Threw AttributeError
                     end
                 | Some _ => Threw AttributeError
                 end).
Proof.
  intros url. unfold co2_saved, fetch_env_benefits, usable_answer. fold url.
  destruct (url_get url w) as [[e | resp] w1] eqn:Hget; cbn [fst snd].
  - split; [reflexivity |]. split; [| split].
    + right. repeat split; eauto. intros members (resp & H & _). discriminate.
    + intros e0 H. discriminate.
    + intros members (resp & H & _). discriminate.
  - destruct (http_error_status (js_status_code resp)) eqn:Hstatus.
    + split; [reflexivity |]. split; [| split].
      * right. repeat split; eauto.
        intros members (resp' & H & Hs & _). inversion H; subst. congruence.
      * intros e0 H. discriminate.
      * intros members (resp' & H & Hs & _). inversion H; subst. congruence.
    + destruct (js_body resp) as [body |] eqn:Hbody.
      * destruct body as [| b | q | s | items | members]; cbn [py_get];
          try (split; [reflexivity |]; split; [| split];
               [ right; repeat split; eauto;
                 intros members (resp' & H & _ & Hb); inversion H; subst;
                 congruence
               | intros e0 H; discriminate
               | intros members (resp' & H & _ & Hb); inversion H; subst;
                 congruence ]).
        split; [reflexivity |]. split; [now left |].
        assert (Hco2 :
          match py_get match dict_lookup "envBenefits" members with
                       | Some v => v
                       | None => JObj []
                       end "gasEmissionSaved" (JObj []) with
          | Returned saved => py_get saved "co2" (JNum 0)
          | Threw e => Threw e
          end
          = match dict_lookup "envBenefits" members with
            | None => Returned (JNum 0)
            | Some (JObj benefits) =>
                match dict_lookup "gasEmissionSaved" benefits with
                | None => Returned (JNum 0)
                | Some (JObj saved) =>
                    Returned (match dict_lookup "co2" saved with
                              | Some v => v
                              | None => JNum 0
                              end)
                | Some _ => Threw AttributeError
                end
            | Some _ => Threw AttributeError
            end).
        { destruct (dict_lookup "envBenefits" members) as [[| | | | |bs] |];
            cbn [py_get dict_lookup]; try reflexivity.
          destruct (dict_lookup "gasEmissionSaved" bs) as [[| | | | |sv] |];
            cbn [py_get dict_lookup]; reflexivity. }
        split.
        -- intros e0. rewrite Hco2.
           destruct (dict_lookup "envBenefits" members) as [[| | | | |bs] |];
             try (intros H; first [discriminate H | now inversion H]).
           destruct (dict_lookup "gasEmissionSaved" bs) as [[| | | | |sv] |];
             intros H; first [discriminate H | now inversion H].
        -- intros members' (resp' & H & _ & Hb). inversion H; subst.
           rewrite Hbody in Hb. inversion Hb; subst.
           split; [reflexivity | exact Hco2].
      * split; [reflexivity |]. split; [| split].
        -- right. repeat split; eauto.
           intros members (resp' & H & _ & Hb). inversion H; subst. congruence.
        -- intros e0 H. discriminate.
        -- intros members (resp' & H & _ & Hb). inversion H; subst. congruence.
Qed.

End EndpointFacts.

(** * Beyond the claims: the figures of the dashboard *)

(** ** The maximum of a series *)

Lemma series_max_none (l : list Q) : series_max l = None -> l = [].
Proof.
  destruct l as [| v rest]; [reflexivity |].
  cbn. destruct (series_max rest); discriminate.
Qed.

Lemma series_max_some (l : list Q) :
  l <> [] -> exists m, series_max l = Some m.
Proof.
  intros Hl. destruct (series_max l) as [m |] eqn:Hm; [eauto |].
  now apply series_max_none in Hm.
Qed.

Lemma series_max_In (l : list Q) (m : Q) : series_max l = Some m -> In m l.
Proof.
  revert m. induction l as [| v rest IH]; intros m; [discriminate |].
  cbn. destruct (series_max rest) as [m' |].
  - intros H. inversion H; subst.
    destruct (Qle_bool m' v); [now left | right; now apply IH].
  - intros H. inversion H. now left.
Qed.

Lemma series_max_upper (l : list Q) (m : Q) :
  series_max l = Some m -> forall x, In x l -> (x <= m)%Q.
Proof.
  revert m. induction l as [| v rest IH]; intros m; [discriminate |].
  cbn [series_max]. destruct (series_max rest) as [m' |] eqn:Hrest.
  - intros H x Hx. inversion H; subst. clear H.
    destruct (Qle_bool m' v) eqn:Hle.
    + apply Qle_bool_iff in Hle. destruct Hx as [<- | Hx].
      * apply Qle_refl.
      * eapply Qle_trans; [apply (IH m' eq_refl x Hx) | exact Hle].
    + assert (Hlt : (v < m')%Q).
      { apply Qnot_le_lt. intros Hc. apply Qle_bool_iff in Hc. congruence. }
      destruct Hx as [<- | Hx].
      * now apply Qlt_le_weak.
      * apply (IH m' eq_refl x Hx).
  - intros H x Hx. inversion H; subst.
    apply series_max_none in Hrest. subst rest.
    destruct Hx as [<- | []]. apply Qle_refl.
Qed.

Lemma find_split {A : Type} (f : A -> bool) (l : list A) (x : A) :
  find f l = Some x ->
  exists pre post,
    l = pre ++ x :: post /\ f x = true /\ forall y, In y pre -> f y = false.
Proof.
  induction l as [| a l IH]; [discriminate |].
  cbn. destruct (f a) eqn:Ha.
  - intros H. inversion H; subst. exists [], l. repeat split; auto.
    intros y [].
  - intros H. destruct (IH H) as (pre & post & -> & Hx & Hpre).
    exists (a :: pre), post. repeat split; auto.
    intros y [<- | Hy]; auto.
Qed.

(** X8: in a frame that is not empty, the row of the maximum is found: it is
    a row of the frame, no row has a larger value, and every row before it
    has a smaller one, so it is the first to reach the maximum; its value is
    the maximum of the column.  In the empty frame no row is found. *)
Theorem peak_row_is_first_maximum (df : DataFrame) :
  df <> [] ->
  exists r m pre post,
    series_max (map value df) = Some m
    /\ peak_row df = Some r
    /\ df = pre ++ r :: post
    /\ (value r == m)%Q
    /\ (forall r', In r' df -> (value r' <= value r)%Q)
    /\ (forall r', In r' pre -> (value r' < value r)%Q)
    /\ peak_row [] = None.
Proof.
  intros Hdf.
  destruct (series_max_some (map value df)) as [m Hm].
  { destruct df; [contradiction | discriminate]. }
  pose proof (series_max_In _ _ Hm) as Hin.
  apply in_map_iff in Hin. destruct Hin as (r0 & Hr0 & Hin0).
  unfold peak_row. rewrite Hm.
  destruct (find (fun r => Qeq_bool (value r) m) df) as [r |] eqn:Hfind.
  - destruct (find_split _ _ _ Hfind) as (pre & post & Hsplit & Hr & Hpre).
    apply Qeq_bool_iff in Hr.
    exists r, m, pre, post. repeat split; auto.
    + intros r' Hr'. rewrite Hr.
      apply (series_max_upper _ _ Hm). now apply in_map.
    + intros r' Hr'. rewrite Hr.
      assert (Hle : (value r' <= m)%Q).
      { apply (series_max_upper _ _ Hm). apply in_map. rewrite Hsplit.
        apply in_or_app. now left. }
      apply Qle_lt_or_eq in Hle.
      destruct Hle as [Hlt | Heq]; [exact Hlt |].
      apply Qeq_bool_iff in Heq. rewrite (Hpre r' Hr') in Heq. discriminate.
  - pose proof (find_none _ _ Hfind r0 Hin0) as Hno. cbn in Hno.
    rewrite Hr0 in Hno. rewrite (proj2 (Qeq_bool_iff m m) (Qeq_refl m)) in Hno.
    discriminate.
Qed.

(** ** Distinct values in order *)

Section Keys.

Context {K : Type}.
Variables eqb leb : K -> K -> bool.
Hypothesis eqb_eq : forall a b, eqb a b = true <-> a = b.
Hypothesis leb_total : forall a b, leb a b = true \/ leb b a = true.
Hypothesis leb_trans :
  forall a b c, leb a b = true -> leb b c = true -> leb a c = true.

Lemma In_unique_by (x : K) (l : list K) :
  In x (unique_by eqb l) <-> In x l.
Proof.
  induction l as [| a l IH]; [reflexivity |].
  cbn [unique_by]. split.
  - intros [-> | Hin]; [now left |].
    apply filter_In in Hin. right. now apply IH.
  - intros [-> | Hin]; [now left |].
    destruct (eqb x a) eqn:Hxa.
    + left. symmetry. now apply eqb_eq.
    + right. apply filter_In. split; [now apply IH | now rewrite Hxa].
Qed.

Lemma NoDup_unique_by (l : list K) : NoDup (unique_by eqb l).
Proof.
  induction l as [| a l IH]; cbn [unique_by]; constructor.
  - intros Hin. apply filter_In in Hin. destruct Hin as [_ Hneq].
    rewrite (proj2 (eqb_eq a a) eq_refl) in Hneq. discriminate.
  - now apply NoDup_filter.
Qed.

Lemma In_insert_by (x y : K) (l : list K) :
  In y (insert_by leb x l) <-> y = x \/ In y l.
Proof.
  induction l as [| a l IH]; cbn [insert_by].
  - cbn. intuition.
  - destruct (leb x a); cbn [In]; [intuition |].
    rewrite IH. intuition.
Qed.

Lemma In_sort_by (y : K) (l : list K) : In y (sort_by leb l) <-> In y l.
Proof.
  induction l as [| a l IH]; [reflexivity |].
  cbn [sort_by fold_right]. fold (sort_by leb l).
  rewrite In_insert_by, IH. cbn. intuition.
Qed.

Lemma NoDup_insert_by (x : K) (l : list K) :
  ~ In x l -> NoDup l -> NoDup (insert_by leb x l).
Proof.
  intros Hx Hl. induction Hl as [| a l Ha Hl IH]; cbn [insert_by].
  - constructor; [intros [] | constructor].
  - destruct (leb x a).
    + constructor; [exact Hx | now constructor].
    + constructor.
      * rewrite In_insert_by. intros [-> | Hin]; [apply Hx; now left | auto].
      * apply IH. intros Hin. apply Hx. now right.
Qed.

Lemma NoDup_sort_by (l : list K) : NoDup l -> NoDup (sort_by leb l).
Proof.
  induction 1 as [| a l Ha Hl IH]; [constructor |].
  cbn [sort_by fold_right]. fold (sort_by leb l).
  apply NoDup_insert_by; [| exact IH]. now rewrite In_sort_by.
Qed.

Lemma sorted_insert_by (x : K) (l : list K) :
  StronglySorted (fun a b => leb a b = true) l ->
  StronglySorted (fun a b => leb a b = true) (insert_by leb x l).
Proof.
  induction 1 as [| a l Hs IH Ha]; cbn [insert_by].
  - constructor; constructor.
  - destruct (leb x a) eqn:Hxa.
    + constructor; [now constructor |].
      constructor; [exact Hxa |].
      eapply Forall_impl; [| exact Ha]. intros b. now apply leb_trans.
    + constructor; [exact IH |].
      apply Forall_forall. intros b Hb. apply In_insert_by in Hb.
      destruct Hb as [-> | Hb].
      * destruct (leb_total a x) as [H | H]; [exact H | congruence].
      * rewrite Forall_forall in Ha. now apply Ha.
Qed.

Lemma sorted_sort_by (l : list K) :
  StronglySorted (fun a b => leb a b = true) (sort_by leb l).
Proof.
  induction l as [| a l IH]; [constructor |].
  cbn [sort_by fold_right]. now apply sorted_insert_by.
Qed.

(** ** The maximum of each group *)

Variable key : row -> K.

Local Abbreviation keys_of df := (sort_by leb (unique_by eqb (map key df))).
Local Abbreviation group_of k df := (filter (fun r => eqb (key r) k) df).

Lemma In_keys_of (k : K) (df : DataFrame) :
  In k (keys_of df) <-> exists r, In r df /\ key r = k.
Proof.
  rewrite In_sort_by, In_unique_by, in_map_iff.
  split; intros (r & H1 & H2); exists r; auto.
Qed.

Lemma In_group_of (r : row) (k : K) (df : DataFrame) :
  In r (group_of k df) <-> In r df /\ key r = k.
Proof. rewrite filter_In, eqb_eq. reflexivity. Qed.

Lemma groupby_max_keys (df : DataFrame) :
  map fst (groupby_max eqb leb key df) = keys_of df.
Proof.
  unfold groupby_max.
  assert (Hkeys : forall k, In k (keys_of df) -> group_of k df <> []).
  { intros k Hk. apply In_keys_of in Hk. destruct Hk as (r & Hr & Hkey).
    intros Hnil. assert (Hin : In r (group_of k df))
      by (apply In_group_of; auto).
    rewrite Hnil in Hin. destruct Hin. }
  induction (keys_of df) as [| k ks IH]; [reflexivity |].
  cbn [flat_map].
  destruct (series_max_some (map value (group_of k df))) as [m Hm].
  { specialize (Hkeys k (or_introl eq_refl)).
    destruct (group_of k df); [contradiction | discriminate]. }
  rewrite Hm. cbn. f_equal. apply IH. intros k' Hk'. apply Hkeys. now right.
Qed.

Lemma In_groupby_max (k : K) (v : Q) (df : DataFrame) :
  In (k, v) (groupby_max eqb leb key df) <->
  In k (keys_of df) /\ series_max (map value (group_of k df)) = Some v.
Proof.
  unfold groupby_max. rewrite in_flat_map. split.
  - intros (k' & Hk' & Hin).
    destruct (series_max (map value (group_of k' df))) as [m |] eqn:Hm;
      [| destruct Hin].
    destruct Hin as [Heq | []]. inversion Heq; subst. auto.
  - intros [Hk Hm]. exists k. split; [exact Hk |]. rewrite Hm. now left.
Qed.

(** What [groupby(key)["value"].max()] gives: one row for each value of the
    key, in ascending order; the value of a row is reached by a row of its
    group and bounds the group; the largest of the group maxima is the
    maximum of the column. *)
Lemma groupby_max_spec (df : DataFrame) :
  let groups := groupby_max eqb leb key df in
  StronglySorted (fun a b => leb a b = true) (map fst groups)
  /\ NoDup (map fst groups)
  /\ (forall k, In k (map fst groups) <-> exists r, In r df /\ key r = k)
  /\ (forall k v, In (k, v) groups ->
        (exists r, In r df /\ key r = k /\ value r = v)
        /\ (forall r, In r df -> key r = k -> (value r <= v)%Q))
  /\ (forall m, series_max (map value df) = Some m ->
        (forall k v, In (k, v) groups -> (v <= m)%Q)
        /\ (exists k v, In (k, v) groups /\ (v == m)%Q)).
Proof.
  intros groups. subst groups. rewrite groupby_max_keys.
  assert (Hgroup : forall k v, In (k, v) (groupby_max eqb leb key df) ->
            (exists r, In r df /\ key r = k /\ value r = v)
            /\ (forall r, In r df -> key r = k -> (value r <= v)%Q)).
  { intros k v Hin. apply In_groupby_max in Hin. destruct Hin as [Hk Hm].
    split.
    - pose proof (series_max_In _ _ Hm) as Hv. apply in_map_iff in Hv.
      destruct Hv as (r & Hr & Hin). apply In_group_of in Hin.
      exists r. tauto.
    - intros r Hr Hkey. apply (series_max_upper _ _ Hm).
      apply in_map, In_group_of. auto. }
  split; [apply sorted_sort_by |].
  split; [apply NoDup_sort_by, NoDup_unique_by |].
  split; [intros k; apply In_keys_of |].
  split; [exact Hgroup |].
  intros m Hm. split.
  - intros k v Hin. destruct (Hgroup k v Hin) as [(r & Hr & _ & <-) _].
    apply (series_max_upper _ _ Hm). now apply in_map.
  - pose proof (series_max_In _ _ Hm) as Hv. apply in_map_iff in Hv.
    destruct Hv as (r & Hr & Hin).
    assert (Hk : In (key r) (keys_of df)) by (apply In_keys_of; eauto).
    rewrite <- groupby_max_keys in Hk. apply in_map_iff in Hk.
    destruct Hk as ([k v] & Hfst & Hkv). cbn in Hfst. subst k.
    exists (key r), v. split; [exact Hkv |].
    destruct (Hgroup _ _ Hkv) as [(r' & Hr' & _ & <-) Hup].
    apply Qle_antisym.
    + apply (series_max_upper _ _ Hm). now apply in_map.
    + rewrite <- Hr. now apply Hup.
Qed.

End Keys.

(** ** The keys of the dashboard *)

Ltac order_cases :=
  repeat match goal with
         | H : context [?a <? ?b] |- _ => destruct (Z.ltb_spec a b)
         | H : context [?a =? ?b] |- _ => destruct (Z.eqb_spec a b)
         | H : context [?a <=? ?b] |- _ => destruct (Z.leb_spec a b)
         | |- context [?a <? ?b] => destruct (Z.ltb_spec a b)
         | |- context [?a =? ?b] => destruct (Z.eqb_spec a b)
         | |- context [?a <=? ?b] => destruct (Z.leb_spec a b)
         end;
  cbn in *; try discriminate; try lia; auto.

Lemma date_eqb_eq (a b : Z * Z * Z) : date_eqb a b = true <-> a = b.
Proof.
  destruct a as [[y1 m1] d1], b as [[y2 m2] d2]. unfold date_eqb.
  rewrite !andb_true_iff, !Z.eqb_eq. split.
  - intros [[-> ->] ->]. reflexivity.
  - intros H. inversion H. auto.
Qed.

Lemma date_leb_total (a b : Z * Z * Z) :
  date_leb a b = true \/ date_leb b a = true.
Proof.
  destruct a as [[y1 m1] d1], b as [[y2 m2] d2]. unfold date_leb.
  order_cases.
Qed.

Lemma date_leb_trans (a b c : Z * Z * Z) :
  date_leb a b = true -> date_leb b c = true -> date_leb a c = true.
Proof.
  destruct a as [[y1 m1] d1], b as [[y2 m2] d2], c as [[y3 m3] d3].
  unfold date_leb. intros H1 H2. order_cases.
Qed.

Lemma month_eqb_eq (a b : Z * Z) : month_eqb a b = true <-> a = b.
Proof.
  destruct a as [y1 m1], b as [y2 m2]. unfold month_eqb. cbn [fst snd].
  rewrite andb_true_iff, !Z.eqb_eq. split.
  - intros [-> ->]. reflexivity.
  - intros H. inversion H. auto.
Qed.

Lemma month_leb_total (a b : Z * Z) :
  month_leb a b = true \/ month_leb b a = true.
Proof.
  destruct a as [y1 m1], b as [y2 m2]. unfold month_leb. cbn [fst snd].
  order_cases.
Qed.

Lemma month_leb_trans (a b c : Z * Z) :
  month_leb a b = true -> month_leb b c = true -> month_leb a c = true.
Proof.
  destruct a as [y1 m1], b as [y2 m2], c as [y3 m3].
  unfold month_leb. cbn [fst snd]. intros H1 H2. order_cases.
Qed.

Lemma Z_leb_total (a b : Z) : (a <=? b) = true \/ (b <=? a) = true.
Proof. order_cases. Qed.

Lemma Z_leb_trans (a b c : Z) :
  (a <=? b) = true -> (b <=? c) = true -> (a <=? c) = true.
Proof. intros H1 H2. order_cases. Qed.

Lemma sorted_strict {K : Type} (R : K -> K -> Prop) (l : list K) :
  StronglySorted R l -> NoDup l ->
  StronglySorted (fun a b => R a b /\ a <> b) l.
Proof.
  induction 1 as [| a l Hs IH Ha]; intros Hnd; constructor.
  - apply IH. now inversion Hnd.
  - inversion Hnd as [| a' l' Hnotin Hnd']; subst.
    apply Forall_forall. intros b Hb. rewrite Forall_forall in Ha.
    split; [now apply Ha |]. intros ->. contradiction.
Qed.

Lemma sorted_weaken {K : Type} (R1 R2 : K -> K -> Prop) (l : list K) :
  (forall a b, R1 a b -> R2 a b) ->
  StronglySorted R1 l -> StronglySorted R2 l.
Proof.
  intros Himp. induction 1 as [| a l Hs IH Ha]; constructor; [exact IH |].
  eapply Forall_impl; [| exact Ha]. intros b. apply Himp.
Qed.

Lemma peak_row_found (df : DataFrame) :
  df <> [] ->
  exists r, peak_row df = Some r /\ In r df
            /\ forall r', In r' df -> (value r' <= value r)%Q.
Proof.
  intros Hdf.
  destruct (series_max_some (map value df)) as [m Hm].
  { destruct df; [contradiction | discriminate]. }
  pose proof (series_max_In _ _ Hm) as Hin.
  apply in_map_iff in Hin. destruct Hin as (r0 & Hr0 & Hin0).
  unfold peak_row. rewrite Hm.
  destruct (find (fun r => Qeq_bool (value r) m) df) as [r |] eqn:Hfind.
  - apply find_some in Hfind. destruct Hfind as [Hr Heq].
    apply Qeq_bool_iff in Heq.
    exists r. repeat split; auto. intros r' Hr'. rewrite Heq.
    apply (series_max_upper _ _ Hm). now apply in_map.
  - pose proof (find_none _ _ Hfind r0 Hin0) as Hno. cbn in Hno.
    rewrite Hr0 in Hno. rewrite (proj2 (Qeq_bool_iff m m) (Qeq_refl m)) in Hno.
    discriminate.
Qed.

(** X9: the years offered for the heatmap are the years of the rows, each
    once, in ascending order.  For a year that is offered, the frame filtered
    by it is not empty, so the row of its maximum is found: a row of that
    year that no row of that year exceeds.  For any other year the filtered
    frame is empty and no row is found. *)
Theorem year_filter_keeps_rows (df : DataFrame) :
  StronglySorted Z.lt (year_options df)
  /\ (forall y, In y (year_options df) <-> exists r, In r df /\ year r = y)
  /\ (forall y, In y (year_options df) ->
        filter_year y df <> []
        /\ exists r, peak_row (filter_year y df) = Some r
                     /\ In r df /\ year r = y
                     /\ forall r', In r' df -> year r' = y ->
                                   (value r' <= value r)%Q)
  /\ (forall y, ~ In y (year_options df) ->
        filter_year y df = [] /\ peak_row (filter_year y df) = None).
Proof.
  assert (Hin : forall y, In y (year_options df)
                          <-> exists r, In r df /\ year r = y).
  { intros y. unfold year_options.
    rewrite (In_sort_by Z.leb), (In_unique_by Z.eqb Z.eqb_eq), in_map_iff.
    split; intros (r & H1 & H2); exists r; auto. }
  assert (Hfilter : forall y r, In r (filter_year y df)
                                <-> In r df /\ year r = y).
  { intros y r. unfold filter_year. rewrite filter_In, Z.eqb_eq. reflexivity. }
  split; [| split; [exact Hin | split]].
  - unfold year_options.
    apply (sorted_weaken (fun a b => (a <=? b) = true /\ a <> b)).
    { intros a b [Hle Hne]. apply Z.leb_le in Hle. lia. }
    apply sorted_strict.
    + apply (sorted_sort_by Z.leb Z_leb_total Z_leb_trans).
    + apply NoDup_sort_by, (NoDup_unique_by Z.eqb Z.eqb_eq).
  - intros y Hy. apply Hin in Hy. destruct Hy as (r0 & Hr0 & Hy0).
    assert (Hne : filter_year y df <> []).
    { intros Hnil. assert (H : In r0 (filter_year y df))
        by (apply Hfilter; auto).
      rewrite Hnil in H. destruct H. }
    split; [exact Hne |].
    destruct (peak_row_found _ Hne) as (r & Hpeak & Hr & Hup).
    apply Hfilter in Hr. destruct Hr as [Hr Hyr].
    exists r. repeat split; auto.
    intros r' Hr' Hy'. apply Hup, Hfilter. auto.
  - intros y Hy.
    assert (Hnil : filter_year y df = []).
    { destruct (filter_year y df) as [| r rest] eqn:Hf; [reflexivity |].
      exfalso. apply Hy, Hin. exists r.
      apply Hfilter. rewrite Hf. now left. }
    rewrite Hnil. split; reflexivity.
Qed.

(** X10: the daily peaks hold one row for each date of the frame, in
    ascending order of the dates; the value of a row is the value of a row of
    that date and no row of that date exceeds it; no daily peak exceeds the
    maximum of the frame, and one of them reaches it; the power shown for a
    day is within 1/2 of four times its peak. *)
Theorem daily_peaks_cover_the_days (df : DataFrame) :
  let peaks := daily_peak df in
  StronglySorted (fun a b => date_leb a b = true /\ a <> b) (map fst peaks)
  /\ (forall d, In d (map fst peaks) <-> exists r, In r df /\ date r = d)
  /\ (forall d v, In (d, v) peaks ->
        (exists r, In r df /\ date r = d /\ value r = v)
        /\ (forall r, In r df -> date r = d -> (value r <= v)%Q))
  /\ (forall m, series_max (map value df) = Some m ->
        (forall d v, In (d, v) peaks -> (v <= m)%Q)
        /\ (exists d v, In (d, v) peaks /\ (v == m)%Q))
  /\ (forall p, In p peaks ->
        (Qabs (inject_Z (daily_max_power p) - 4 * snd p) <= 1 # 2)%Q).
Proof.
  intros peaks. subst peaks. unfold daily_peak.
  destruct (groupby_max_spec date_eqb date_leb date_eqb_eq date_leb_total
              date_leb_trans date df) as (Hs & Hnd & Hk & Hg & Hm).
  split; [now apply sorted_strict |].
  split; [exact Hk |]. split; [exact Hg |]. split; [exact Hm |].
  intros [d v] _. unfold daily_max_power. cbn [snd].
  pose proof (round_half_even_nearest (v / (1 # 4))) as Hr.
  apply Qabs_Qle_condition in Hr. apply Qabs_Qle_condition.
  unfold Qdiv in Hr. change (/ (1 # 4))%Q with 4%Q in Hr.
  unfold Qdiv. change (/ (1 # 4))%Q with 4%Q.
  split; lra.
Qed.

(** X11: in a frame where the date of every row is its year, month and day,
    as in every dataset of [fetch_energy_chunked], the peak of a month is the
    largest of the daily peaks of that month: no daily peak of the month
    exceeds it and one of them reaches it. *)
Theorem monthly_peak_is_largest_daily_peak (df : DataFrame)
    (y mo : Z) (v : Q) :
  Forall (fun r => date r = (year r, month r, day r)) df ->
  In (y, mo, v) (monthly_peak df) ->
  (forall d v', In (d, v') (daily_peak df) ->
                fst (fst d) = y -> snd (fst d) = mo -> (v' <= v)%Q)
  /\ (exists d v', In (d, v') (daily_peak df)
                   /\ fst (fst d) = y /\ snd (fst d) = mo /\ (v' == v)%Q).
Proof.
  intros Hdates Hin.
  rewrite Forall_forall in Hdates.
  destruct (groupby_max_spec month_eqb month_leb month_eqb_eq month_leb_total
              month_leb_trans (fun r => (year r, month r)) df)
    as (_ & _ & _ & Hmonth & _).
  destruct (groupby_max_spec date_eqb date_leb date_eqb_eq date_leb_total
              date_leb_trans date df) as (_ & _ & Hkeys & Hday & _).
  fold (daily_peak df) in Hkeys, Hday. fold (monthly_peak df) in Hmonth.
  destruct (Hmonth _ _ Hin) as [(r & Hr & Hkey & Hval) Hup].
  inversion Hkey; subst y mo. split.
  - intros d v' Hd Hy Hmo.
    destruct (Hday _ _ Hd) as [(r' & Hr' & Hdate & <-) _].
    apply Hup; [exact Hr' |].
    rewrite (Hdates r' Hr') in Hdate. subst d. cbn in Hy, Hmo. congruence.
  - assert (Hd : In (date r) (map fst (daily_peak df)))
      by (apply Hkeys; eauto).
    apply in_map_iff in Hd. destruct Hd as ([d v'] & Hfst & Hd).
    cbn in Hfst. subst d.
    exists (date r), v'. rewrite (Hdates r Hr) at 2 3. cbn [fst snd].
    repeat split; auto.
    destruct (Hday _ _ Hd) as [(r' & Hr' & Hdate & Hv') Hupd].
    apply Qle_antisym.
    + rewrite <- Hv'. apply Hup; [exact Hr' |].
      rewrite (Hdates r' Hr'), (Hdates r Hr) in Hdate.
      inversion Hdate. reflexivity.
    + rewrite <- Hval. now apply Hupd.
Qed.

Lemma monthly_peak_is_largest_daily_peak_witness :
  exists d v',
    In (d, v') (daily_peak [normalize sample_null_1440;
                            normalize sample_150_0915])
    /\ fst (fst d) = 2023 /\ snd (fst d) = 1 /\ (v' == 150 # 1)%Q.
Proof.
  refine (proj2 (monthly_peak_is_largest_daily_peak
                   [normalize sample_null_1440; normalize sample_150_0915]
                   2023 1 (150 # 1) _ _)).
  - repeat constructor.
  - vm_compute. left. reflexivity.
Defined.

Lemma peak_row_is_first_maximum_witness :
  exists r, peak_row [normalize sample_null_1440; normalize sample_150_0915]
            = Some r.
Proof.
  destruct (peak_row_is_first_maximum
              [normalize sample_null_1440; normalize sample_150_0915])
    as (r & m & pre & post & _ & Hpeak & _).
  - discriminate.
  - exists r. exact Hpeak.
Defined.

(** * Beyond the claims: the order of the dataset *)

Lemma sorted_app {A : Type} (R : A -> A -> Prop) (l1 l2 : list A) :
  StronglySorted R l1 -> StronglySorted R l2 ->
  (forall x y, In x l1 -> In y l2 -> R x y) ->
  StronglySorted R (l1 ++ l2).
Proof.
  intros H1 H2 Hcross. induction H1 as [| a l1 Hs IH Ha]; [exact H2 |].
  cbn [app]. constructor.
  - apply IH. intros x y Hx. apply Hcross. now right.
  - apply Forall_app. split; [exact Ha |].
    apply Forall_forall. intros y Hy. apply Hcross; [now left | exact Hy].
Qed.

Section Order.

Context {World : Type}.
Variable http_get : request -> World -> http_result * World.
Variables API_KEY SITE_ID : string.
Hypothesis in_order : answers_in_order http_get.

Local Abbreviation fetch_w := (fetch_in_world http_get API_KEY SITE_ID).
Local Abbreviation per_day := (per_day_fetch http_get API_KEY SITE_ID).
Local Abbreviation chunk := (process_chunk http_get API_KEY SITE_ID).
Local Abbreviation chunks := (fetch_chunks http_get API_KEY SITE_ID).
Local Abbreviation fetch_all := (fetch_energy_chunked http_get API_KEY SITE_ID).

Lemma fetch_in_world_in_order tu a b (w : World) :
  Forall (fun r => a <= row_day r <= b) (rows_of (fst (fetch_w tu a b w)))
  /\ StronglySorted rows_in_order (rows_of (fst (fetch_w tu a b w))).
Proof.
  rewrite fetch_in_world_eq.
  destruct (http_get _ w) as [[e | r] w'] eqn:Hget;
    [split; constructor |].
  destruct (http_error_status (status_code r)) eqn:Hstatus;
    [split; constructor |].
  destruct (in_order (energy_request API_KEY SITE_ID tu a b) w r) as [Hin Hs].
  { now rewrite Hget. }
  { exact Hstatus. }
  cbn [fst rows_of startDate endDate energy_request] in *. split.
  - apply Forall_map. exact Hin.
  - clear Hin. induction Hs as [| s l Hs IH Hall]; cbn [map]; constructor.
    + exact IH.
    + apply Forall_map. exact Hall.
Qed.

Lemma per_day_fetch_in_order tu days (w : World) :
  StronglySorted Z.lt days ->
  Forall (fun r => In (row_day r) days)
    (flat_map rows_of (fst (per_day tu days w)))
  /\ StronglySorted rows_in_order
       (flat_map rows_of (fst (per_day tu days w))).
Proof.
  intros Hdays. revert w.
  induction Hdays as [| d days Hs IH Hd]; intros w; [split; constructor |].
  cbn [per_day_fetch].
  destruct (fetch_in_world_in_order tu d d w) as [Hin Hsorted].
  destruct (fetch_w tu d d w) as [r w1].
  destruct (IH w1) as [Hin' Hsorted'].
  destruct (per_day tu days w1) as [rs w2].
  cbn [fst flat_map] in *. split.
  - apply Forall_app. split.
    + eapply Forall_impl; [| exact Hin]. intros x Hx. cbn in Hx. left. lia.
    + eapply Forall_impl; [| exact Hin']. intros x Hx. now right.
  - apply sorted_app; [exact Hsorted | exact Hsorted' |].
    intros x y Hx Hy. left.
    rewrite Forall_forall in Hin, Hin', Hd.
    specialize (Hin x Hx). specialize (Hd _ (Hin' y Hy)). lia.
Qed.

(** The rows that a turn of the loop adds. *)
Lemma process_chunk_in_order tu a b frames (st st' : state World) p :
  chunk tu a b frames st = (Done p, st') ->
  exists added,
    pd_concat (fst p) = pd_concat frames ++ added
    /\ Forall (fun r => a <= row_day r <= b) added
    /\ StronglySorted rows_in_order added.
Proof.
  rewrite process_chunk_eq.
  destruct (fetch_in_world_in_order tu a b (world st)) as [Hin Hsorted].
  destruct (fetch_w tu a b (world st)) as [[df | e | ] w];
    [| destruct (is_HTTPError e) |]; intros H; inversion H; subst;
    cbn [fst rows_of] in *.
  - exists df. rewrite pd_concat_append_nonempty. auto.
  - destruct (per_day_fetch_in_order tu (date_range a b) w
                (date_range_sorted a b)) as [Hin' Hsorted'].
    eexists. rewrite pd_concat_app, pd_concat_kept_frames.
    split; [reflexivity | split; [| exact Hsorted']].
    eapply Forall_impl; [| exact Hin']. intros r Hr.
    now apply In_date_range in Hr.
Qed.

Lemma fetch_chunks_in_order tu (lo last first : pydate) plan frames
    (st st' : state World) final :
  tiles last first plan ->
  lo <= first ->
  Forall (fun r => lo <= row_day r < first) (pd_concat frames) ->
  StronglySorted rows_in_order (pd_concat frames) ->
  chunks tu plan frames st = (Done final, st') ->
  Forall (fun r => lo <= row_day r <= last) (pd_concat final)
  /\ StronglySorted rows_in_order (pd_concat final).
Proof.
  intros Ht. revert frames st.
  induction Ht as [| first chunk_end rest H1 H2 H3 Ht IH];
    intros frames st Hlo Hin Hsorted.
  - cbn. intros H. inversion H; subst. split; [| exact Hsorted].
    eapply Forall_impl; [| exact Hin]. intros r Hr. cbn in Hr. lia.
  - cbn [fetch_chunks]. unfold bind.
    destruct (chunk tu first chunk_end frames st) as [[p | e | ] st1] eqn:Hp;
      try discriminate.
    destruct (process_chunk_in_order _ _ _ _ _ _ _ Hp)
      as (added & Hrows & Hadded & Hs).
    apply IH; [lia | rewrite Hrows ..].
    + apply Forall_app. split.
      * eapply Forall_impl; [| exact Hin]. intros r Hr. cbn in Hr. lia.
      * eapply Forall_impl; [| exact Hadded]. intros r Hr. cbn in Hr.
        lia.
    + apply sorted_app; [exact Hsorted | exact Hs |].
      intros x y Hx Hy. left.
      rewrite Forall_forall in Hin, Hadded.
      specialize (Hin x Hx). specialize (Hadded y Hy). cbn in Hin. lia.
Qed.

(** X12: against a remote that answers a request with samples of the days
    asked for, in the order of their timestamps, the rows of the dataset that
    [fetch_energy_chunked] returns are rows of days of the range, in the
    order of their timestamps, whichever chunks were fetched at once and
    whichever day by day. *)
Theorem dataset_in_order tu start_date end_date (st : state World) :
  Forall (fun r => start_date <= row_day r <= end_date)
    (rows_of (fst (fetch_all tu start_date end_date st)))
  /\ StronglySorted rows_in_order
       (rows_of (fst (fetch_all tu start_date end_date st))).
Proof.
  rewrite fetch_energy_chunked_plan.
  destruct (chunks tu (planned_chunks start_date end_date) [] st)
    as [[final | e | ] st'] eqn:Hrun; try (split; constructor).
  cbn [fst rows_of]. rewrite assemble_eq.
  destruct (Z.le_gt_cases start_date (end_date + 1)) as [Hle | Hgt].
  - eapply fetch_chunks_in_order;
      [apply planned_chunks_tiles; exact Hle | lia | | | exact Hrun];
      constructor.
  - unfold planned_chunks in Hrun. rewrite chunk_plan_empty in Hrun by lia.
    inversion Hrun; subst. split; constructor.
Qed.

End Order.

Lemma one_sample_remote_in_order : answers_in_order one_sample_remote.
Proof.
  intros rq w resp Hget _. unfold one_sample_remote in Hget. cbn [fst] in Hget.
  destruct ((startDate rq <=? 738521) && (738521 <=? endDate rq)) eqn:Hin;
    inversion Hget; subst; cbn [energy_values]; [| split; constructor].
  apply andb_true_iff in Hin. destruct Hin as [H1 H2].
  apply Z.leb_le in H1, H2. split.
  - constructor; [| constructor]. exact (conj H1 H2).
  - constructor; constructor.
Qed.

Lemma dataset_in_order_witness :
  StronglySorted rows_in_order
    (rows_of (fst (fetch_energy_chunked one_sample_remote "key" "site"
                     "QUARTER_OF_AN_HOUR" 738500 738584 (mkState tt [])))).
Proof.
  exact (proj2 (dataset_in_order one_sample_remote "key" "site"
                  one_sample_remote_in_order "QUARTER_OF_AN_HOUR"
                  738500 738584 (mkState tt []))).
Defined.
